(** * glyphsLib: the plist object builder and the axis model

    A shallow embedding of [Lib/glyphsLib/parser.py] (class [Parser],
    [load_glyphspackage]) and of the axis resolver exercised by
    [tests/builder/axes_test.py].

    Conventions.
    - A Python [str] is a [string]; the character of code [n] stands for the
      code point [n], so the model covers the code points below 256.
    - A Python [int] is a [Z] (Python integers are unbounded).
    - A [dict] is an association list in insertion order.
    - A call that can raise returns a [result].
    - [self.current_type] is threaded through the parser's methods as an
      explicit [Parser] state.

    The first part holds the definitions, function by function in the
    order of the source; the second part the properties. *)

From Stdlib Require Import ZArith List String Ascii Bool Lia Permutation Sorted.
From Stdlib Require Import Decimal DecimalString DecimalPos DecimalN DecimalZ.
Import ListNotations.

Local Open Scope string_scope.
Local Open Scope Z_scope.

Set Warnings "-register-all".

(** ** Python values and exceptions *)

(** The generic values the plist decoder produces with [use_numbers=True],
    and the instances the object builder creates from a target class. *)
Inductive PyValue : Type :=
| PyInt (n : Z)
| PyFloat (mantissa exponent : Z)
| PyStr (s : string)
| PyList (xs : list PyValue)
| PyDict (items : list (string * PyValue))
| PyInst (cls : nat) (items : list (string * PyValue)).

Inductive PyExc : Type :=
| ValueError (msg : string)
| TypeError (msg : string)
| KeyError (key : string)
| AttributeError (msg : string)
| IndexError (msg : string)
| UnicodeDecodeError
| ParseError (msg : string)
| ChainedValueError (msg : string) (cause : PyExc).

Inductive result (A : Type) : Type :=
| Ok (a : A)
| Raise (e : PyExc).
Arguments Ok {A} a.
Arguments Raise {A} e.

Definition bind {A B} (m : result A) (k : A -> result B) : result B :=
  match m with
  | Ok a => k a
  | Raise e => Raise e
  end.

Declare Scope py_scope.
Delimit Scope py_scope with py.
Notation "x <- m ;; k" := (bind m (fun x => k))
  (at level 61, m at next level, right associativity) : py_scope.
Notation "' pat <- m ;; k" := (bind m (fun x => match x with pat => k end))
  (at level 61, pat pattern, m at next level, right associativity) : py_scope.
Local Open Scope py_scope.

(** [ValueError] and [TypeError] are what the specification calls a
    FormatError. *)
Definition is_FormatError (e : PyExc) : bool :=
  match e with
  | ValueError _ | TypeError _ => true
  | _ => false
  end.

(** ** Strings *)

Definition code (c : ascii) : N := N_of_ascii c.

(** The white space [int] skips around a literal, among the code points
    below 256: tab to carriage return, space, U+0085 and U+00A0 (the
    separators U+001C to U+001F are white space for [str.strip] but not
    for [int]). *)
Definition int_space (c : ascii) : bool :=
  let n := code c in
  ((9 <=? n) && (n <=? 13) || (n =? 32) || (n =? 133) || (n =? 160))%N.

(** Decimal digits: the only code points below 256 that [int] accepts. *)
Definition digit_value (c : ascii) : option Z :=
  let n := code c in
  if ((48 <=? n) && (n <=? 57))%N then Some (Z.of_N n - 48) else None.

(** [str.isdigit] on one code point below 256: the decimal digits and the
    superscripts two, three and one. *)
Definition py_isdigit_char (c : ascii) : bool :=
  let n := code c in
  ((48 <=? n) && (n <=? 57) || (n =? 178) || (n =? 179) || (n =? 185))%N.

Fixpoint forallb_string (p : ascii -> bool) (s : string) : bool :=
  match s with
  | EmptyString => true
  | String c r => p c && forallb_string p r
  end.

(** [value.isdigit()] *)
Definition isdigit (s : string) : bool :=
  match s with
  | EmptyString => false
  | _ => forallb_string py_isdigit_char s
  end.

(** [s.lstrip(chars)] and [s.rstrip(chars)], the set given as a predicate. *)
Fixpoint lstrip (p : ascii -> bool) (s : string) : string :=
  match s with
  | EmptyString => EmptyString
  | String c r => if p c then lstrip p r else s
  end.

Fixpoint rstrip (p : ascii -> bool) (s : string) : string :=
  match s with
  | EmptyString => EmptyString
  | String c r =>
      match rstrip p r with
      | EmptyString => if p c then EmptyString else String c EmptyString
      | r' => String c r'
      end
  end.

(** [value.startswith(prefix)] is [String.prefix]; [value[n:]]: *)
Fixpoint drop (n : nat) (s : string) : string :=
  match n, s with
  | O, _ => s
  | S n', String _ r => drop n' r
  | S _, EmptyString => EmptyString
  end.

(** The digits of an [int] literal: decimal digits, a single underscore
    allowed between two digits. [prev] tells whether the previous
    character was a digit. *)
Fixpoint parse_digits (acc : Z) (prev : bool) (s : string) : option Z :=
  match s with
  | EmptyString => if prev then Some acc else None
  | String c r =>
      match digit_value c with
      | Some d => parse_digits (10 * acc + d) true r
      | None =>
          if (Ascii.eqb c "_" && prev)%bool then parse_digits acc false r
          else None
      end
  end.

Definition parse_signed (s : string) : option Z :=
  match s with
  | String "+" r => parse_digits 0 false r
  | String "-" r => option_map Z.opp (parse_digits 0 false r)
  | _ => parse_digits 0 false s
  end.

(** [int(s)] for a [str]: surrounding whitespace, an optional sign, digits.
    The message quotes the literal the way [repr] does for a plain string.
    (The interpreter's configurable limit on the number of digits is not
    modelled.) *)
Definition int_of_str (s : string) : result Z :=
  match parse_signed (rstrip int_space (lstrip int_space s)) with
  | Some n => Ok n
  | None => Raise (ValueError ("invalid literal for int() with base 10: '" ++ s ++ "'"))
  end.

(** [str(n)] for an [int]. *)
Definition str_of_int (n : Z) : string := NilZero.string_of_int (Z.to_int n).

Definition class_name (v : PyValue) : string :=
  match v with
  | PyInt _ => "int"
  | PyFloat _ _ => "float"
  | PyStr _ => "str"
  | PyList _ => "list"
  | PyDict _ => "dict"
  | PyInst _ _ => "object"
  end.

(** [type(value)] as the f-string prints it. *)
Definition type_name (v : PyValue) : string := "<class '" ++ class_name v ++ "'>".

(** ** [Parser._convert_bits] *)

Definition _convert_bits (value : PyValue) : result Z :=
  match value with
  | PyInt n => Ok n
  | PyStr s =>
      if isdigit s then int_of_str s
      else if String.prefix "bit " s then
        let number_str := drop 4 s in
        match int_of_str number_str with
        | Ok n => Ok n
        | Raise (ValueError _) =>
            Raise (ValueError ("'" ++ s ++ "' is not in correct format. A number must follow after 'bit '."))
        | Raise e => Raise e
        end
      else Raise (ValueError ("'" ++ s ++ "'is neither a number nor 'bit ' format."))
  | _ => Raise (TypeError ("Unsupported type: " ++ type_name value))
  end.

(** ** Dictionaries and dynamic operations *)

Definition dict := list (string * PyValue).

Fixpoint lookup (key : string) (items : dict) : option PyValue :=
  match items with
  | [] => None
  | (k, v) :: rest => if String.eqb k key then Some v else lookup key rest
  end.

(** [d[key] = v]: an existing key keeps its position. *)
Fixpoint dict_set (key : string) (v : PyValue) (items : dict) : dict :=
  match items with
  | [] => [(key, v)]
  | (k, x) :: rest =>
      if String.eqb k key then (k, v) :: rest else (k, x) :: dict_set key v rest
  end.

(** [d.pop(key)] leaves the other items. *)
Fixpoint dict_remove (key : string) (items : dict) : dict :=
  match items with
  | [] => []
  | (k, x) :: rest =>
      if String.eqb k key then rest else (k, x) :: dict_remove key rest
  end.

(** [d.update(other)] *)
Definition dict_update (items other : dict) : dict :=
  fold_left (fun acc kv => dict_set (fst kv) (snd kv) acc) other items.

(** [value.get(key, default)] *)
Definition py_get (value : PyValue) (key : string) (default : PyValue) : result PyValue :=
  match value with
  | PyDict items =>
      Ok (match lookup key items with Some x => x | None => default end)
  | _ => Raise (AttributeError ("'" ++ class_name value ++ "' object has no attribute 'get'"))
  end.

(** [value[key]] for a [str] key. *)
Definition py_getitem (value : PyValue) (key : string) : result PyValue :=
  match value with
  | PyDict items =>
      match lookup key items with
      | Some x => Ok x
      | None => Raise (KeyError key)
      end
  | PyStr _ => Raise (TypeError "string indices must be integers")
  | PyList _ => Raise (TypeError "list indices must be integers or slices, not str")
  | _ => Raise (TypeError ("'" ++ class_name value ++ "' object is not subscriptable"))
  end.

(** [for x in value] *)
Definition py_iter (value : PyValue) : result (list PyValue) :=
  match value with
  | PyList xs => Ok xs
  | PyStr s => Ok (map (fun c => PyStr (String c EmptyString)) (list_ascii_of_string s))
  | PyDict items => Ok (map (fun kv => PyStr (fst kv)) items)
  | _ => Raise (TypeError ("'" ++ class_name value ++ "' object is not iterable"))
  end.

(** [str(page)], where it can be the decimal numeral of an [int]: the [str]
    of a float, a list or a dict never is one. *)
Definition py_str (page : PyValue) : option string :=
  match page with
  | PyInt n => Some (str_of_int n)
  | PyStr s => Some s
  | _ => None
  end.

(** [int(page)] for the values [py_str] is defined on. *)
Definition py_int (page : PyValue) : result Z :=
  match page with
  | PyInt n => Ok n
  | PyStr s => int_of_str s
  | _ => Raise (TypeError ("int() argument must be a string or a real number, not '" ++ class_name page ++ "'"))
  end.

(** ** [Parser._process_codepage_ranges] *)

Definition is_codepage_name (name : PyValue) : bool :=
  match name with
  | PyStr s => String.eqb s "codePageRanges" || String.eqb s "openTypeOS2CodePageRanges"
  | _ => false
  end.

Definition custom_parameter (name : string) (values : list Z) : PyValue :=
  PyDict [("name", PyStr name); ("value", PyList (map PyInt values))].

Section CodepageRanges.

(** [glyphsLib.builder.constants.CODEPAGE_RANGES]: code page to bit. The
    table lives outside this file; the functions take it as given. *)
Variable CODEPAGE_RANGES : list (Z * Z).

Definition CODEPAGE_RANGES_KEYS : list string :=
  map (fun kv => str_of_int (fst kv)) CODEPAGE_RANGES.

Definition in_keys (page : PyValue) : bool :=
  match py_str page with
  | Some s => existsb (String.eqb s) CODEPAGE_RANGES_KEYS
  | None => false
  end.

(** The first loop: the value of the first code-page parameter. *)
Fixpoint find_codepages (params : list PyValue) : result (option PyValue) :=
  match params with
  | [] => Ok None
  | param :: rest =>
      name <- py_getitem param "name" ;;
      if is_codepage_name name
      then (v <- py_getitem param "value" ;; Ok (Some v))
      else find_codepages rest
  end.

(** The second loop, with its two accumulators. *)
Fixpoint split_pages (codepages : list PyValue)
         (supported_codepages unsupported_bits : list Z)
  : result (list Z * list Z) :=
  match codepages with
  | [] => Ok (supported_codepages, unsupported_bits)
  | page :: rest =>
      if in_keys page then
        n <- py_int page ;;
        split_pages rest (supported_codepages ++ [n]) unsupported_bits
      else
        b <- _convert_bits page ;;
        split_pages rest supported_codepages (unsupported_bits ++ [b])
  end.

(** The third loop: the parameters that are kept. *)
Fixpoint keep_params (params : list PyValue) (new_params : list PyValue)
  : result (list PyValue) :=
  match params with
  | [] => Ok new_params
  | param :: rest =>
      name <- py_getitem param "name" ;;
      if negb (is_codepage_name name)
      then keep_params rest (new_params ++ [param])
      else keep_params rest new_params
  end.

Definition emit (name : string) (values : list Z) (new_params : list PyValue) : list PyValue :=
  match values with
  | [] => new_params
  | _ => new_params ++ [custom_parameter name values]
  end.

Definition _process_codepage_ranges (value : PyValue) : result PyValue :=
  custom <- py_get value "customParameters" (PyList []) ;;
  params <- py_iter custom ;;
  found <- find_codepages params ;;
  match found with
  | None => Ok value
  | Some codepages =>
      pages <- py_iter codepages ;;
      '(supported_codepages, unsupported_bits) <- split_pages pages [] [] ;;
      match value with
      | PyDict result_items =>
          custom' <- py_getitem value "customParameters" ;;
          params' <- py_iter custom' ;;
          new_params <- keep_params params' [] ;;
          let new_params := emit "codePageRanges" supported_codepages new_params in
          let new_params := emit "codePageRangesUnsupportedBits" unsupported_bits new_params in
          Ok (PyDict (dict_set "customParameters" (PyList new_params) result_items))
      | _ => Raise (AttributeError ("'" ++ class_name value ++ "' object has no attribute 'copy'"))
      end
  end.

End CodepageRanges.

(** ** The object builder *)

(** What the walk needs to know of a target class: whether its instances
    are [dict]s, its [_parse_<name>_dict] hooks, and its [__setitem__].
    The classes themselves ([glyphsLib.classes]) are outside this file; a
    hook is given the value and acts on the items of its own object. *)
Record PyClass : Type := {
  cls_isdict : bool;
  cls_hook : string -> option (PyValue -> dict -> result dict);
  cls_setitem : string -> PyValue -> dict -> result dict
}.

Inductive PyType : Type :=
| TyDict
| TyOrderedDict
| TyClass (c : nat)
| TyList (ts : list PyType).

Record Parser : Type := {
  current_type : option PyType;
  format_version : Z
}.

Definition set_current_type (self : Parser) (t : option PyType) : Parser :=
  {| current_type := t; format_version := format_version self |}.

(** [Parser()] *)
Definition default_parser : Parser :=
  {| current_type := Some TyOrderedDict; format_version := 2 |}.

(** [new_type or self.current_type]: [None] and the empty list are false. *)
Definition py_or (new_type current : option PyType) : option PyType :=
  match new_type with
  | None | Some (TyList []) => current
  | Some _ => new_type
  end.

(** [name.replace(".", "__")] *)
Fixpoint sane (name : string) : string :=
  match name with
  | EmptyString => EmptyString
  | String c r => if Ascii.eqb c "." then String "_" (String "_" (sane r)) else String c (sane r)
  end.

Section ObjectBuilder.

Variable classes : nat -> PyClass.

(** [new_type()] *)
Definition instantiate (t : PyType) : result PyValue :=
  match t with
  | TyDict | TyOrderedDict => Ok (PyDict [])
  | TyClass c => Ok (PyInst c [])
  | TyList _ => Raise (TypeError "'list' object is not callable")
  end.

(** [hasattr(res, f"_parse_{sane_name}_dict")] *)
Definition hook_of (res : PyValue) (sane_name : string)
  : option (PyValue -> dict -> result dict) :=
  match res with
  | PyInst c _ => cls_hook (classes c) sane_name
  | _ => None
  end.

(** [isinstance(res, (dict, OrderedDict))] *)
Definition isinstance_dict (res : PyValue) : bool :=
  match res with
  | PyDict _ => true
  | PyInst c _ => cls_isdict (classes c)
  | _ => false
  end.

(** [res[name] = v] *)
Definition setitem (res : PyValue) (name : string) (v : PyValue) : result PyValue :=
  match res with
  | PyDict items => Ok (PyDict (dict_set name v items))
  | PyInst c items =>
      items' <- cls_setitem (classes c) name v items ;; Ok (PyInst c items')
  | _ => Raise (TypeError ("'" ++ class_name res ++ "' object does not support item assignment"))
  end.

Definition call_hook (res : PyValue) (h : PyValue -> dict -> result dict) (v : PyValue)
  : result PyValue :=
  match res with
  | PyInst c items => items' <- h v items ;; Ok (PyInst c items')
  | _ => Ok res
  end.

(** The object the caller passed as [res], and what the local name [res]
    is bound to: [None] while it is still the caller's object, [Some r]
    once the [except] branch has rebound it to a fresh dict. *)
Record Walk : Type := {
  caller_object : PyValue;
  rebound : option PyValue
}.

Definition res_of (w : Walk) : PyValue :=
  match rebound w with
  | Some r => r
  | None => caller_object w
  end.

(** A mutation of the object [res] names reaches the caller's object
    only while [res] is not rebound. *)
Definition mutate (w : Walk) (r : PyValue) : Walk :=
  match rebound w with
  | Some _ => {| caller_object := caller_object w; rebound := Some r |}
  | None => {| caller_object := r; rebound := None |}
  end.

Section Walk.

(** [self._parse(d[name])] *)
Variable parse : PyValue -> Parser -> result (PyValue * Parser).

(** The loop of [_parse_dict_into_object]; [d[name]] is the value of
    the item, the keys of a dict being distinct. *)
Fixpoint walk (d : dict) (w : Walk) (self : Parser) {struct d}
  : result (Walk * Parser) :=
  match d with
  | [] => Ok (w, self)
  | (name, value) :: rest =>
      let res := res_of w in
      let sane_name := sane name in
      match hook_of res ("_parse_" ++ sane_name ++ "_dict") with
      | Some h =>
          r <- call_hook res h value ;;
          walk rest (mutate w r) self
      | None =>
          if isinstance_dict res then
            '(result, self) <- parse value self ;;
            match setitem res name result with
            | Ok r => walk rest (mutate w r) self
            | Raise (TypeError _) | Raise (KeyError _) =>
                let res := PyDict [] in
                r <- setitem res name result ;;
                walk rest {| caller_object := caller_object w; rebound := Some r |} self
            | Raise e => Raise e
            end
          else
            r <- setitem res name value ;;
            walk rest (mutate w r) self
      end
  end.

Definition _parse_dict_into_object_with (res : PyValue) (d : dict) (self : Parser)
  : result (Walk * Parser) :=
  walk d {| caller_object := res; rebound := None |} self.

Definition _parse_dict_with (text : dict) (new_type : option PyType) (self : Parser)
  : result (PyValue * Parser) :=
  let old_current_type := current_type self in
  let new_type := py_or new_type (current_type self) in
  new_type <- match new_type with
              | None => Ok TyDict
              | Some (TyList (t :: _)) => Ok t
              | Some (TyList []) => Raise (IndexError "list index out of range")
              | Some t => Ok t
              end ;;
  res <- instantiate new_type ;;
  '(w, self) <- _parse_dict_into_object_with res text self ;;
  let self := set_current_type self old_current_type in
  Ok (caller_object w, self).

Fixpoint map_parse (new_type : option PyType)
         (each : PyValue -> option PyType -> Parser -> result (PyValue * Parser))
         (d : list PyValue) (self : Parser) {struct d}
  : result (list PyValue * Parser) :=
  match d with
  | [] => Ok ([], self)
  | x :: rest =>
      '(v, self) <- each x new_type self ;;
      '(vs, self) <- map_parse new_type each rest self ;;
      Ok (v :: vs, self)
  end.

End Walk.

Fixpoint _parse (d : PyValue) (new_type : option PyType) (self : Parser) {struct d}
  : result (PyValue * Parser) :=
  let self := set_current_type self (py_or new_type (current_type self)) in
  match d with
  | PyList xs =>
      (* _parse_list *)
      let self := set_current_type self (py_or new_type (current_type self)) in
      '(vs, self) <- map_parse new_type _parse xs self ;;
      Ok (PyList vs, self)
  | PyDict items =>
      _parse_dict_with (fun x => _parse x None) items new_type self
  | PyInst c items =>
      (* isinstance(d, (dict, OrderedDict)): an instance of a dict
         subclass is walked like a dict, over the items it holds *)
      if cls_isdict (classes c) then
        _parse_dict_with (fun x => _parse x None) items new_type self
      else Ok (d, self)
  | _ => Ok (d, self)
  end.

Definition _parse_list (d : list PyValue) (new_type : option PyType) (self : Parser)
  : result (PyValue * Parser) :=
  let self := set_current_type self (py_or new_type (current_type self)) in
  '(vs, self) <- map_parse new_type _parse d self ;;
  Ok (PyList vs, self).

Definition _parse_dict (text : dict) (new_type : option PyType) (self : Parser)
  : result (PyValue * Parser) :=
  _parse_dict_with (fun x => _parse x None) text new_type self.

Definition _parse_dict_into_object (res : PyValue) (d : dict) (self : Parser)
  : result (Walk * Parser) :=
  _parse_dict_into_object_with (fun x => _parse x None) res d self.

End ObjectBuilder.

(** ** [Parser.parse] and [Parser.parse_into_object] *)

(** The argument of [parse]: a [str], [bytes], or any other value. A
    [str] is a [str] however it is given, [SrcStr s] or
    [SrcValue (PyStr s)]. *)
Inductive Source : Type :=
| SrcStr (s : string)
| SrcBytes (b : string)
| SrcValue (v : PyValue).

(** [d.rstrip(";\n")] *)
Definition _fl7_format_clean (d : string) : string :=
  rstrip (fun c => Ascii.eqb c ";" || Ascii.eqb c "010") d.

(** [try: ... except openstep_plist.parser.ParseError as e:
    raise ValueError("Failed to parse file") from e] *)
Definition except_ParseError {A} (attempt : result A) : result A :=
  match attempt with
  | Raise (ParseError m) =>
      Raise (ChainedValueError "Failed to parse file" (ParseError m))
  | r => r
  end.

Section Decoder.

(** [openstep_plist.loads(_, use_numbers=True)] and [bytes.decode()]:
    the decoder is a separate library. It reports what it cannot read
    with [ParseError]. *)
Variable loads : string -> result PyValue.
Variable decode : string -> result string.
Variable classes : nat -> PyClass.

Definition parse (d : Source) (self : Parser) : result (PyValue * Parser) :=
  except_ParseError
    match d with
    | SrcStr s | SrcValue (PyStr s) =>
        (* isinstance(d, str) *)
        let s := _fl7_format_clean s in
        v <- loads s ;;
        _parse classes v None self
    | SrcBytes b =>
        let b := _fl7_format_clean b in
        s <- decode b ;;
        v <- loads s ;;
        _parse classes v None self
    | SrcValue v => _parse classes v None self
    end.

Variable CODEPAGE_RANGES : list (Z * Z).

Definition parse_into_object (res : PyValue) (value : PyValue) (self : Parser)
  : result (Walk * Parser) :=
  processed_value <- _process_codepage_ranges CODEPAGE_RANGES value ;;
  match processed_value with
  | PyDict d => _parse_dict_into_object classes res d self
  | _ => Raise (AttributeError ("'" ++ class_name processed_value ++ "' object has no attribute 'keys'"))
  end.

End Decoder.

(** ** [load_glyphspackage] *)

(** A decoded glyph file: a dict with a [str] under ["glyphname"], and its
    other items. *)
Record Glyph : Type := {
  glyphname : string;
  glyph_items : dict
}.

Definition glyph_value (g : Glyph) : PyValue :=
  PyDict (("glyphname", PyStr (glyphname g)) :: glyph_items g).

(** The decoded files of a package directory; [None] for an optional file
    that does not exist. *)
Record Package : Type := {
  fontinfo : dict;
  orderfile : option (list string);
  uistatefile : option dict;
  glyphfiles : list Glyph
}.

(** The tuples [sort_key] returns: [(0, index)] and [(1, glyphname)]. *)
Inductive SortKey : Type :=
| KeyOrdered (index : nat)
| KeyName (name : string).

(** [glyphorder.index(glyphname)], when [glyphname in glyphorder]. *)
Fixpoint index (glyphname : string) (glyphorder : list string) : option nat :=
  match glyphorder with
  | [] => None
  | x :: rest =>
      if String.eqb x glyphname then Some O
      else option_map S (index glyphname rest)
  end.

Definition sort_key (glyphorder : list string) (glyph : Glyph) : SortKey :=
  match index (glyphname glyph) glyphorder with
  | Some i => KeyOrdered i
  | None => KeyName (glyphname glyph)
  end.

(** [a < b] on the key tuples; strings compare by code point. *)
Definition key_lt (a b : SortKey) : bool :=
  match a, b with
  | KeyOrdered i, KeyOrdered j => Nat.ltb i j
  | KeyOrdered _, KeyName _ => true
  | KeyName _, KeyOrdered _ => false
  | KeyName s, KeyName t => String.ltb s t
  end.

(** [sorted(xs, key=key)]: a stable sort that only uses [<] on the keys. *)
Fixpoint insert_sorted {A} (key : A -> SortKey) (x : A) (l : list A) : list A :=
  match l with
  | [] => [x]
  | y :: rest =>
      if key_lt (key y) (key x) then y :: insert_sorted key x rest
      else x :: y :: rest
  end.

Fixpoint sorted {A} (key : A -> SortKey) (l : list A) : list A :=
  match l with
  | [] => []
  | x :: rest => insert_sorted key x (sorted key rest)
  end.

Definition merge_uistate (data uistate : dict) : dict :=
  let uistate :=
    match lookup "displayStrings" uistate, lookup "DisplayStrings" uistate with
    | Some v, None => dict_set "DisplayStrings" v (dict_remove "displayStrings" uistate)
    | _, _ => uistate
    end in
  dict_update data uistate.

Definition load_glyphspackage (package : Package) : dict :=
  let glyphorder := match orderfile package with Some l => l | None => [] end in
  let data := fontinfo package in
  let data := match uistatefile package with
              | Some uistate => merge_uistate data uistate
              | None => data
              end in
  let data := dict_set "glyphs" (PyList (map glyph_value (glyphfiles package))) data in
  dict_set "glyphs"
    (PyList (map glyph_value (sorted (sort_key glyphorder) (glyphfiles package)))) data.

(** The glyphs of the returned payload, in order. *)
Definition package_glyphs (package : Package) : list Glyph :=
  let glyphorder := match orderfile package with Some l => l | None => [] end in
  sorted (sort_key glyphorder) (glyphfiles package).

(** ** The axis resolver

    [glyphsLib.builder.axes] is not part of the sources at hand; only its
    tests are. The resolver is therefore modelled from section 4.4 of the
    specification. Numbers are integers, as in every test of
    [tests/builder/axes_test.py] that the properties below use. *)

Module Axes.

(** Modelled from the spec: one [{Axis: name, Location: number}] entry of
    an "Axis Location" or "Virtual Master" custom parameter (the absent
    [glyphsLib.classes] hold them); a numeric string is taken as
    already coerced to its number. *)
Record AxisLocation : Type := {
  Axis : string;
  Location : Z
}.

(** Modelled from the spec: an axis declaration (tag, name) of the absent
    class [GSAxis]. *)
Record GSAxis : Type := {
  axis_tag : string;
  axis_name : string
}.

(** Modelled from the spec: a master of the absent class [GSFontMaster],
    with its design-space coordinates, one per declared axis, and the
    entries of its "Axis Location" custom parameter (none when the
    parameter is absent). *)
Record GSFontMaster : Type := {
  master_id : string;
  master_name : string;
  master_axes : list Z;
  master_axis_location : list AxisLocation
}.

(** Modelled from the spec: an instance of the absent class [GSInstance],
    with its design-space coordinates and "Axis Location" entries. *)
Record GSInstance : Type := {
  instance_name : string;
  instance_axes : list Z;
  instance_axis_location : list AxisLocation
}.

(** Modelled from the spec: the font-level custom parameters the absent
    resolver reads. "Axis Mappings" maps an axis tag to its
    (user value, design value) entries. *)
Inductive CustomParameter : Type :=
| AxisMappings (mappings : list (string * list (Z * Z)))
| VirtualMaster (locations : list AxisLocation)
| VariableFontOrigin (origin : string)
| VariationFontOrigin (origin : string)
| OtherParameter (name : string).

(** Modelled from the spec: the typed font of the absent class [GSFont]:
    axes, masters, instances and custom parameters, all ordered. *)
Record GSFont : Type := {
  axes : list GSAxis;
  masters : list GSFontMaster;
  instances : list GSInstance;
  customParameters : list CustomParameter
}.

(** Modelled from the spec: the CanonicalAxis the absent resolver
    returns. *)
Record CanonicalAxis : Type := {
  tag : string;
  name : string;
  minimum : Z;
  default : Z;
  maximum : Z;
  map : list (Z * Z)
}.

(** Modelled from the spec: the Location of the entry naming the axis, in
    the "Axis Location" list of a master or an instance (the absent
    resolver's lookup). *)
Fixpoint location_of (axis : string) (locations : list AxisLocation) : option Z :=
  match locations with
  | [] => None
  | l :: rest =>
      if String.eqb (Axis l) axis then Some (Location l) else location_of axis rest
  end.

(** Modelled from the spec: the pair an entity of the absent resolver
    contributes to the mapping of an axis: the user-space Location of its
    "Axis Location" entry with its design-space coordinate, nothing when
    it carries no entry for the axis. *)
Definition location_pair (i : nat) (axis : string)
           (coordinates : list Z) (locations : list AxisLocation) : list (Z * Z) :=
  match location_of axis locations with
  | Some user => [(user, nth i coordinates 0)]
  | None => []
  end.

(** Modelled from the spec: the pairs of the masters, for the absent
    resolver's step 2. *)
Definition master_pairs (font : GSFont) (i : nat) (axis : string) : list (Z * Z) :=
  flat_map (fun m => location_pair i axis (master_axes m) (master_axis_location m))
           (masters font).

(** Modelled from the spec: the pairs of the instances, for the absent
    resolver's step 2. *)
Definition instance_pairs (font : GSFont) (i : nat) (axis : string) : list (Z * Z) :=
  flat_map (fun x => location_pair i axis (instance_axes x) (instance_axis_location x))
           (instances font).

(** Modelled from the spec: "deduplicate by userValue, sort ascending" of
    the absent resolver: a pair enters a mapping sorted by user value
    unless its user value is already mapped. *)
Fixpoint insert_pair (p : Z * Z) (mapping : list (Z * Z)) : list (Z * Z) :=
  match mapping with
  | [] => [p]
  | q :: rest =>
      if fst p <? fst q then p :: q :: rest
      else if fst p =? fst q then q :: rest
      else q :: insert_pair p rest
  end.

(** Modelled from the spec: the absent resolver's ordered, deduplicated
    mapping of a sequence of pairs; of two pairs with one user value the
    earlier stays, so the masters, which come first, win. *)
Definition sort_dedup (pairs : list (Z * Z)) : list (Z * Z) :=
  fold_left (fun mapping p => insert_pair p mapping) pairs [].

(** Modelled from the spec: the entry of the "Axis Mappings" custom
    parameter for an axis tag, read by the absent resolver's step 1. *)
Fixpoint explicit_mapping (parameters : list CustomParameter) (tag : string)
  : option (list (Z * Z)) :=
  match parameters with
  | [] => None
  | AxisMappings mappings :: rest =>
      match find (fun e => String.eqb (fst e) tag) mappings with
      | Some e => Some (snd e)
      | None => explicit_mapping rest tag
      end
  | _ :: rest => explicit_mapping rest tag
  end.

(** Modelled from the spec: the mapping of one axis by the absent
    resolver, in priority order: the explicit "Axis Mappings" entry
    (elided when it is the identity), else the "Axis Location" pairs of
    masters then instances, else empty. *)
Definition axis_mapping (font : GSFont) (i : nat) (axis : GSAxis) : list (Z * Z) :=
  match explicit_mapping (customParameters font) (axis_tag axis) with
  | Some entries =>
      if forallb (fun e => fst e =? snd e) entries then [] else sort_dedup entries
  | None =>
      sort_dedup (master_pairs font i (axis_name axis)
                  ++ instance_pairs font i (axis_name axis))
  end.

(** Modelled from the spec: the coordinates the "Virtual Master" custom
    parameters give for an axis, as the absent resolver collects them. *)
Definition virtual_coordinates (font : GSFont) (axis : string) : list Z :=
  flat_map (fun p => match p with
                     | VirtualMaster locations =>
                         match location_of axis locations with
                         | Some v => [v]
                         | None => []
                         end
                     | _ => []
                     end) (customParameters font).

(** Modelled from the spec: the origin named by "Variable Font Origin",
    or else by the legacy "Variation Font Origin", for the absent
    [get_regular_master]. *)
Definition font_origin (font : GSFont) : option string :=
  match find (fun p => match p with VariableFontOrigin _ => true | _ => false end)
             (customParameters font) with
  | Some (VariableFontOrigin o) => Some o
  | _ =>
      match find (fun p => match p with VariationFontOrigin _ => true | _ => false end)
                 (customParameters font) with
      | Some (VariationFontOrigin o) => Some o
      | _ => None
      end
  end.

(** Modelled from the spec: the absent [get_regular_master]: the master
    whose id is the origin, else the one whose name is, else the first
    master in declaration order. (The spec's intermediate heuristic
    compares with the axis defaults, which are themselves read off the
    regular master; the model goes to its last resort.) *)
Definition get_regular_master (font : GSFont) : option GSFontMaster :=
  let named :=
    match font_origin font with
    | Some o =>
        match find (fun m => String.eqb (master_id m) o) (masters font) with
        | Some m => Some m
        | None => find (fun m => String.eqb (master_name m) o) (masters font)
        end
    | None => None
    end in
  match named with
  | Some m => Some m
  | None => hd_error (masters font)
  end.

(** Modelled from the spec: the design-space coordinate of a master of
    the absent class [GSFontMaster] on the axis of index [i]. *)
Definition design_coordinate (i : nat) (m : GSFontMaster) : Z :=
  nth i (master_axes m) 0.

(** Modelled from the spec: the user value that pairs of an axis give
    for a design value, for the absent resolver's conversion of a
    master's coordinate to user space; the first such pair in their
    order. Between the pairs a mapping is piecewise linear; the model
    knows the pairs only and has no user value for a design value
    between them. *)
Fixpoint user_of (design : Z) (mapping : list (Z * Z)) : option Z :=
  match mapping with
  | [] => None
  | q :: rest => if snd q =? design then Some (fst q) else user_of design rest
  end.

(** Modelled from the spec: the (user value, design value) pairs the
    font records for an axis, before the absent resolver elides an
    identity: the "Axis Mappings" entry, else the "Axis Location" pairs
    of masters then instances. *)
Definition recorded_pairs (font : GSFont) (i : nat) (axis : GSAxis) : list (Z * Z) :=
  match explicit_mapping (customParameters font) (axis_tag axis) with
  | Some entries => sort_dedup entries
  | None =>
      sort_dedup (master_pairs font i (axis_name axis)
                  ++ instance_pairs font i (axis_name axis))
  end.

(** Modelled from the spec: the user-space coordinates the masters give
    the absent resolver for the minimum and maximum of an axis. On an
    axis for which the font records no pair (identity assumed) they are
    the design coordinates of the masters. Otherwise they are the user
    values of the recorded pairs, the user-space coordinates the font
    has for the axis: [test_mapping_using_axis_location_cp_on_masters_none]
    expects 400, 400, 400 for masters at 72, 112 and 48 with the pair
    (400, 72), and [test_axis_mapping] expects 100 and 900 for masters
    at 0 and 1000 with (100, 0), (400, 350), (900, 1000). An identity
    that is elided from the mapping still gives the range, which is what
    section 4.5 has it synthesized for. *)
Definition master_extent (font : GSFont) (i : nat) (axis : GSAxis) : list Z :=
  match recorded_pairs font i axis with
  | [] => List.map (design_coordinate i) (masters font)
  | pairs => List.map fst pairs
  end.

(** Modelled from the spec: the coordinates over which the absent
    resolver takes the minimum and maximum of an axis: the masters'
    coordinates and every virtual-master coordinate on that axis. *)
Definition extent_coordinates (font : GSFont) (i : nat) (axis : GSAxis) : list Z :=
  master_extent font i axis ++ virtual_coordinates font (axis_name axis).

(** Modelled from the spec: the default of an axis for the absent
    resolver, the coordinate of the regular master in user space: its
    design coordinate on an axis without recorded pairs, the user value
    the pairs give for it otherwise. *)
Definition default_coordinate (font : GSFont) (i : nat) (axis : GSAxis)
           (regular : GSFontMaster) : option Z :=
  match recorded_pairs font i axis with
  | [] => Some (design_coordinate i regular)
  | pairs => user_of (design_coordinate i regular) pairs
  end.

(** Modelled from the spec: one axis of the absent resolver's answer. A
    font without masters has no regular master and yields no axis, nor
    does the model give one when the recorded pairs have none for the
    regular master's design coordinate. *)
Definition resolve_axis (font : GSFont) (i : nat) (axis : GSAxis) : option CanonicalAxis :=
  match get_regular_master font with
  | None => None
  | Some regular =>
      match default_coordinate font i axis regular with
      | None => None
      | Some d =>
          let coordinates := extent_coordinates font i axis in
          Some {| tag := axis_tag axis;
                  name := axis_name axis;
                  minimum := fold_right Z.min d coordinates;
                  default := d;
                  maximum := fold_right Z.max d coordinates;
                  map := axis_mapping font i axis |}
      end
  end.

(** Modelled from the spec: the absent resolver on the whole font: one
    canonical axis per declared axis, in declaration order. *)
Fixpoint resolve_from (font : GSFont) (i : nat) (declared : list GSAxis)
  : list (option CanonicalAxis) :=
  match declared with
  | [] => []
  | axis :: rest => resolve_axis font i axis :: resolve_from font (S i) rest
  end.

(** Modelled from the spec: the absent resolver's entry point. *)
Definition resolve (font : GSFont) : list (option CanonicalAxis) :=
  resolve_from font 0 (axes font).

(** Modelled from the spec: a font of the absent class [GSFont] with the
    "Axis Location" entries of all its instances removed. *)
Definition without_instance_locations (font : GSFont) : GSFont :=
  {| axes := axes font;
     masters := masters font;
     instances := List.map (fun x => {| instance_name := instance_name x;
                                        instance_axes := instance_axes x;
                                        instance_axis_location := [] |})
                           (instances font);
     customParameters := customParameters font |}.


(** *** The fonts of [tests/builder/axes_test.py] *)

Definition loc (axis : string) (location : Z) : AxisLocation :=
  {| Axis := axis; Location := location |}.

Definition weight_width : list GSAxis :=
  [ {| axis_tag := "wght"; axis_name := "Weight" |};
    {| axis_tag := "wdth"; axis_name := "Width" |} ].

Definition origin_id : string := "95FB0C11-C828-4064-8966-34220AA4D426".

Definition located_masters : list GSFontMaster :=
  [ {| master_id := origin_id; master_name := "Regular"; master_axes := [72; 448];
       master_axis_location := [loc "Weight" 400; loc "Width" 100] |};
    {| master_id := "m1"; master_name := "Bold"; master_axes := [112; 448];
       master_axis_location := [loc "Weight" 700; loc "Width" 100] |};
    {| master_id := "m2"; master_name := "Thin"; master_axes := [48; 448];
       master_axis_location := [loc "Weight" 200; loc "Width" 100] |};
    {| master_id := "m3"; master_name := "Cd Regular"; master_axes := [72; 224];
       master_axis_location := [loc "Weight" 400; loc "Width" 50] |} ].

(** [test_mapping_using_axis_location_custom_parameter_on_instances] *)
Definition font_locations_on_instances : GSFont :=
  {| axes := weight_width;
     masters := located_masters;
     instances :=
       [ {| instance_name := "Thin"; instance_axes := [48; 448];
            instance_axis_location := [loc "Weight" 200; loc "Width" 100] |};
         {| instance_name := "Light"; instance_axes := [62; 448];
            instance_axis_location := [loc "Weight" 300; loc "Width" 100] |};
         {| instance_name := "Regular"; instance_axes := [72; 448];
            instance_axis_location := [loc "Weight" 400; loc "Width" 100] |};
         {| instance_name := "Medium"; instance_axes := [92; 448];
            instance_axis_location := [loc "Weight" 600; loc "Width" 100] |};
         {| instance_name := "Cd Regular"; instance_axes := [72; 224];
            instance_axis_location := [loc "Weight" 400; loc "Width" 50] |};
         {| instance_name := "SCd Regular"; instance_axes := [72; 384];
            instance_axis_location := [loc "Weight" 400; loc "Width" 60] |} ];
     customParameters := [VariableFontOrigin origin_id] |}.

(** [test_mapping_using_axis_location_cp_on_masters_none] *)
Definition font_locations_on_masters_none : GSFont :=
  {| axes := weight_width;
     masters :=
       [ {| master_id := "m0"; master_name := "Regular"; master_axes := [72; 448];
            master_axis_location := [] |};
         {| master_id := "m1"; master_name := "Bold"; master_axes := [112; 448];
            master_axis_location := [] |};
         {| master_id := "m2"; master_name := "Thin"; master_axes := [48; 448];
            master_axis_location := [] |};
         {| master_id := "m3"; master_name := "Cd Regular"; master_axes := [72; 224];
            master_axis_location := [] |} ];
     instances :=
       [ {| instance_name := "Regular"; instance_axes := [72; 448];
            instance_axis_location := [loc "Weight" 400; loc "Width" 100] |};
         {| instance_name := "SCd Regular"; instance_axes := [72; 384];
            instance_axis_location := [loc "Weight" 400; loc "Width" 60] |};
         {| instance_name := "Cd Regular"; instance_axes := [72; 224];
            instance_axis_location := [loc "Weight" 400; loc "Width" 50] |} ];
     customParameters := [] |}.

(** [test_mapping_using_axis_location_cp_on_instances_none] *)
Definition font_locations_on_instances_none : GSFont :=
  {| axes := weight_width;
     masters := located_masters;
     instances :=
       [ {| instance_name := "SCd Regular"; instance_axes := [72; 384];
            instance_axis_location := [] |} ];
     customParameters := [] |}.

(** [test_mapping_is_same_regardless_of_axes_custom_parameter] *)
Definition font_three_weights : GSFont :=
  {| axes := [ {| axis_tag := "wght"; axis_name := "Weight" |} ];
     masters :=
       [ {| master_id := "m0"; master_name := "ExtraLight"; master_axes := [200];
            master_axis_location := [] |};
         {| master_id := "m1"; master_name := "Regular"; master_axes := [400];
            master_axis_location := [] |};
         {| master_id := "m2"; master_name := "Bold"; master_axes := [700];
            master_axis_location := [] |} ];
     instances := [];
     customParameters := [] |}.

(** [test_axis_mapping]: the "Axis Mappings" of the weight axis and the
    identity on the width axis; no origin is set, the first master is
    the regular one. *)
Definition font_axis_mappings : GSFont :=
  {| axes := weight_width;
     masters :=
       [ {| master_id := "m0"; master_name := "Regular"; master_axes := [0; 100];
            master_axis_location := [] |};
         {| master_id := "m1"; master_name := "Regular"; master_axes := [1000; 100];
            master_axis_location := [] |};
         {| master_id := "m2"; master_name := "Regular"; master_axes := [0; 75];
            master_axis_location := [] |};
         {| master_id := "m3"; master_name := "Regular"; master_axes := [1000; 75];
            master_axis_location := [] |} ];
     instances := [];
     customParameters :=
       [ AxisMappings [ ("wght", [(100, 0); (400, 350); (900, 1000)]);
                        ("wdth", [(75, 75); (100, 100)]) ] ] |}.

(** The font section 4.5 describes for the axis of
    [test_axis_with_no_mapping_does_not_error_in_roundtrip]: one master
    at 0 and a two-point identity that keeps the range 0 to 1. *)
Definition font_style_range : GSFont :=
  {| axes := [ {| axis_tag := "styl"; axis_name := "Style" |} ];
     masters :=
       [ {| master_id := "m0"; master_name := "Regular"; master_axes := [0];
            master_axis_location := [] |} ];
     instances := [];
     customParameters := [ AxisMappings [ ("styl", [(0, 0); (1, 1)]) ] ] |}.

(** [test_virtual_masters_extend_min_max_for_unmapped_axis]: the real
    masters all at Cap Height 700, two virtual masters at 600 and 800. *)
Definition font_virtual_masters : GSFont :=
  {| axes := [ {| axis_tag := "CPHT"; axis_name := "Cap Height" |};
               {| axis_tag := "wght"; axis_name := "Weight" |} ];
     masters :=
       [ {| master_id := "m0"; master_name := "Regular"; master_axes := [700; 400];
            master_axis_location := [] |};
         {| master_id := "m1"; master_name := "Black"; master_axes := [700; 900];
            master_axis_location := [] |} ];
     instances := [];
     customParameters :=
       [ VirtualMaster [loc "Cap Height" 600; loc "Weight" 400];
         VirtualMaster [loc "Cap Height" 800; loc "Weight" 400] ] |}.

End Axes.

(** ** Vocabulary of the properties *)

Definition is_decimal (c : ascii) : bool :=
  match digit_value c with
  | Some _ => true
  | None => false
  end.

(** A digit-only string: not empty, every character one of 0 to 9. *)
Definition decimal_only (s : string) : bool :=
  match s with
  | EmptyString => false
  | _ => forallb_string is_decimal s
  end.

Fixpoint decimal_value_from (acc : Z) (s : string) : Z :=
  match s with
  | EmptyString => acc
  | String c r => decimal_value_from (10 * acc + (Z.of_N (code c) - 48)) r
  end.

(** The integer a digit-only string denotes. *)
Definition decimal_value (s : string) : Z := decimal_value_from 0 s.




Definition is_ok {A} (r : result A) : bool :=
  match r with
  | Ok _ => true
  | Raise _ => false
  end.

(** The inputs of the bit-number grammar: an integer, a digit-only string,
    or ["bit "] followed by what [int] reads. *)
Definition bit_number (value : PyValue) : bool :=
  match value with
  | PyInt _ => true
  | PyStr s => decimal_only s || (String.prefix "bit " s && is_ok (int_of_str (drop 4 s)))
  | _ => false
  end.

Fixpoint mapM {A B} (f : A -> result B) (l : list A) : result (list B) :=
  match l with
  | [] => Ok []
  | x :: rest => y <- f x ;; ys <- mapM f rest ;; Ok (y :: ys)
  end.

(** A custom parameter that has a name. *)
Definition has_name (param : PyValue) : bool := is_ok (py_getitem param "name").

(** A custom parameter named [codePageRanges] or
    [openTypeOS2CodePageRanges]. *)
Definition is_codepage_param (param : PyValue) : bool :=
  match py_getitem param "name" with
  | Ok name => is_codepage_name name
  | Raise _ => false
  end.

Definition is_named (name : string) (param : PyValue) : bool :=
  match py_getitem param "name" with
  | Ok (PyStr s) => String.eqb s name
  | _ => false
  end.

(** The font payload [items] with [params] as its custom parameters. *)
Definition with_params (items : dict) (params : list PyValue) : dict :=
  dict_set "customParameters" (PyList params) items.

(** What normalization appends for the two buckets. *)
Definition emitted (supported unsupported : list Z) : list PyValue :=
  emit "codePageRangesUnsupportedBits" unsupported (emit "codePageRanges" supported []).

(** [str(page) not in CODEPAGE_RANGES_KEYS] *)
Definition not_in_keys (table : list (Z * Z)) (page : PyValue) : bool :=
  negb (in_keys table page).

Definition not_codepage_param (param : PyValue) : bool := negb (is_codepage_param param).

(** [params] is [before ++ first :: after], every parameter has a name, and
    [first] is the first one named as a code-page parameter. *)
Definition first_codepage_param (params before : list PyValue) (first : PyValue)
           (after : list PyValue) : Prop :=
  params = (before ++ first :: after)%list /\
  forallb has_name params = true /\
  forallb not_codepage_param before = true /\
  is_codepage_param first = true.

Definition count_named (name : string) (params : list PyValue) : nat :=
  List.length (filter (is_named name) params).

(** [a] may stand before [b] in the glyph list: by index when both names
    are in the order list, a listed name before an unlisted one, and by
    name (code point order) when neither is listed. *)
Definition glyph_precedes (glyphorder : list string) (a b : Glyph) : Prop :=
  match index (glyphname a) glyphorder, index (glyphname b) glyphorder with
  | Some i, Some j => (i <= j)%nat
  | Some _, None => True
  | None, Some _ => False
  | None, None => String.leb (glyphname a) (glyphname b) = true
  end.

Definition key_le (a b : SortKey) : Prop := key_lt b a = false.

Definition in_key_order {A} (key : A -> SortKey) (x y : A) : Prop :=
  key_le (key x) (key y).

(** The exceptions the [except (TypeError, KeyError)] clause catches. *)
Definition rejects (e : PyExc) : bool :=
  match e with
  | TypeError _ | KeyError _ => true
  | _ => false
  end.

(** What the decoder made of a source; a source that is neither [str]
    nor [bytes] is not decoded. *)
Definition decoded (loads : string -> result PyValue) (decode : string -> result string)
           (d : Source) (v : PyValue) : Prop :=
  match d with
  | SrcStr s | SrcValue (PyStr s) => loads (_fl7_format_clean s) = Ok v
  | SrcBytes b => exists s, decode (_fl7_format_clean b) = Ok s /\ loads s = Ok v
  | SrcValue v' => v' = v
  end.

Fixpoint distinct (keys : list string) : bool :=
  match keys with
  | [] => true
  | k :: rest => negb (existsb (String.eqb k) rest) && distinct rest
  end.

(** A value as the decoder builds it: the keys of every dict are distinct
    and there is no instance of a class in it. *)
Fixpoint decoder_value (v : PyValue) : bool :=
  match v with
  | PyList xs => forallb decoder_value xs
  | PyDict items =>
      distinct (List.map fst items) && forallb (fun kv => decoder_value (snd kv)) items
  | PyInst _ _ => false
  | _ => true
  end.

(** [dict], [OrderedDict], or no type at all. *)
Definition plain_type (t : option PyType) : bool :=
  match t with
  | None | Some TyDict | Some TyOrderedDict => true
  | _ => false
  end.

(** The design value the first pair with user value [user] maps it to. *)
Fixpoint design_of (user : Z) (pairs : list (Z * Z)) : option Z :=
  match pairs with
  | [] => None
  | (u, d) :: rest => if u =? user then Some d else design_of user rest
  end.

(** User values strictly increase along a mapping. *)
Definition increasing (mapping : list (Z * Z)) : Prop :=
  StronglySorted (fun p q => fst p < fst q) mapping.


(** ** Sample inputs *)

Module Sample.

(** Two rows of the code-page table. *)
Definition table : list (Z * Z) := [(1252, 0); (1250, 1)].

Definition parameter (name : string) (value : PyValue) : PyValue :=
  PyDict [("name", PyStr name); ("value", value)].

Definition note : PyValue := parameter "note" (PyStr "x").

Definition first : PyValue :=
  parameter "openTypeOS2CodePageRanges"
            (PyList [PyInt 1252; PyStr "1250"; PyStr "bit 29"; PyInt 30]).

Definition later : PyValue := parameter "codePageRanges" (PyList [PyInt 1250]).

Definition pages : list PyValue :=
  [PyInt 1252; PyStr "1250"; PyStr "bit 29"; PyInt 30].

Definition font_with (params : list PyValue) : dict :=
  [("familyName", PyStr "Sample"); ("customParameters", PyList params);
   ("unitsPerEm", PyInt 1000)].

Definition font : dict := font_with [note; first; later].

(** A font that already carries a codePageRangesUnsupportedBits
    parameter, and whose code pages are all in the table. *)
Definition old_bits : PyValue :=
  parameter "codePageRangesUnsupportedBits" (PyList [PyInt 29]).

Definition known_pages : PyValue :=
  parameter "codePageRanges" (PyList [PyInt 1252]).

Definition font_with_old_bits : dict :=
  [("customParameters", PyList [old_bits; known_pages])].

(** A subclass of [dict] whose [__setitem__] rejects every key. *)
Definition strict : PyClass :=
  {| cls_isdict := true;
     cls_hook := fun _ => None;
     cls_setitem := fun name _ _ => Raise (TypeError ("cannot store " ++ name)) |}.

Definition strict_classes : nat -> PyClass := fun _ => strict.

(** [Parser(current_type=Strict)] *)
Definition strict_parser : Parser :=
  {| current_type := Some (TyClass 0); format_version := 2 |}.

Definition document : PyValue := PyDict [("a", PyInt 1); ("b", PyList [PyInt 2])].

(** A decoder that reads one document and rejects everything else. *)
Definition toy_loads (s : string) : result PyValue :=
  if String.eqb s "{a = 1; b = (2);}" then Ok document
  else Raise (ParseError "Unexpected character").

Definition toy_decode (b : string) : result string := Ok b.

Definition plain_classes : nat -> PyClass :=
  fun _ => {| cls_isdict := false;
              cls_hook := fun _ => None;
              cls_setitem := fun name v items => Ok (dict_set name v items) |}.

End Sample.

(** ** [load] and [loads] *)

(** What [load] is given: an open readable file, the name of a package
    directory, or the name of a file; each with its contents. *)
Inductive FileOrPath : Type :=
| Readable (content : string)
| Directory (package : Package)
| Path (content : string).

(** [font.__class__], for an instance or a dict. For any other object the
    walk stops at the first key with a [TypeError], before the parser's
    type is looked at. *)
Definition class_of (font : PyValue) : option PyType :=
  match font with
  | PyInst c _ => Some (TyClass c)
  | PyDict _ => Some TyDict
  | _ => None
  end.

Section ModuleFunctions.

(** [openstep_plist.load(_, use_numbers=True)] and [openstep_plist.loads],
    on the contents; [GSFont] is the class [glyphsLib.classes.GSFont], a
    new instance of which has nothing assigned yet. *)
Variable plist_loads : string -> result PyValue.
Variable classes : nat -> PyClass.
Variable CODEPAGE_RANGES : list (Z * Z).
Variable GSFont : nat.

Definition load (file_or_path : FileOrPath) (font : option PyValue) : result PyValue :=
  let font := match font with
              | None => PyInst GSFont []
              | Some font => font
              end in
  let p := {| current_type := class_of font; format_version := 2 |} in
  data <- match file_or_path with
          | Readable content => plist_loads content
          | Directory package => Ok (PyDict (load_glyphspackage package))
          | Path content => plist_loads content
          end ;;
  '(w, _) <- parse_into_object classes CODEPAGE_RANGES font data p ;;
  Ok (caller_object w).

Definition loads (s : string) : result PyValue :=
  let p := {| current_type := Some (TyClass GSFont); format_version := 2 |} in
  let res := PyInst GSFont [] in
  data <- plist_loads s ;;
  '(w, _) <- parse_into_object classes CODEPAGE_RANGES res data p ;;
  Ok (caller_object w).

End ModuleFunctions.

(** ** Vocabulary of the further properties *)

(** The characters [_fl7_format_clean] strips. *)
Definition fl7_trailer (c : ascii) : bool := Ascii.eqb c ";" || Ascii.eqb c "010".

(** [isinstance(d, str)] *)
Definition is_str (d : PyValue) : bool :=
  match d with
  | PyStr _ => true
  | _ => false
  end.

(** The type [_parse_dict] instantiates. *)
Definition chosen_type (t : option PyType) : option PyType :=
  match t with
  | None => Some TyDict
  | Some (TyList (t :: _)) => Some t
  | Some (TyList []) => None
  | Some t => Some t
  end.

Definition instance_of (t : PyType) (r : PyValue) : Prop :=
  match t, r with
  | TyDict, PyDict _ | TyOrderedDict, PyDict _ => True
  | TyClass c, PyInst c' _ => c = c'
  | _, _ => False
  end.

(** Two objects of one class (or two plain dicts, two lists, ...). *)
Definition same_class (a b : PyValue) : Prop :=
  match a, b with
  | PyInst c _, PyInst c' _ => c = c'
  | PyDict _, PyDict _ | PyList _, PyList _ | PyStr _, PyStr _
  | PyInt _, PyInt _ | PyFloat _ _, PyFloat _ _ => True
  | _, _ => False
  end.

(** A class without hooks for the keys at hand, that is no [dict], and
    whose [__setitem__] stores what it is given. *)
Definition stores_items (classes : nat -> PyClass) (c : nat) (d : dict) : Prop :=
  cls_isdict (classes c) = false /\
  (forall name, In name (List.map fst d) ->
                cls_hook (classes c) ("_parse_" ++ sane name ++ "_dict") = None) /\
  (forall name v items, cls_setitem (classes c) name v items = Ok (dict_set name v items)).

(** A font payload with no custom parameter named as a code-page
    parameter (or with no custom parameters at all). *)
Definition no_codepage_param (items : dict) : Prop :=
  match lookup "customParameters" items with
  | None => True
  | Some (PyList params) =>
      forallb has_name params = true /\ forallb not_codepage_param params = true
  | Some _ => False
  end.

(** What the UI state gives for a key once [displayStrings] is renamed. *)
Definition uistate_value (uistate : dict) (key : string) : option PyValue :=
  match lookup "displayStrings" uistate, lookup "DisplayStrings" uistate with
  | Some v, None =>
      if String.eqb key "DisplayStrings" then Some v
      else if String.eqb key "displayStrings" then None
      else lookup key uistate
  | _, _ => lookup key uistate
  end.

Definition named (name : string) (g : Glyph) : bool := String.eqb (glyphname g) name.

(** ** A sample package *)

Module SamplePackage.

Definition glyph (name : string) : Glyph :=
  {| glyphname := name; glyph_items := [("unicode", PyStr "0041")] |}.

Definition package : Package :=
  {| fontinfo := [("familyName", PyStr "Sample"); ("displayStrings", PyList [])];
     orderfile := Some ["b"; "a"];
     uistatefile := Some [("displayStrings", PyList [PyStr "ab"]);
                          ("familyName", PyStr "Shown")];
     glyphfiles := [glyph "a"; glyph "Z"; glyph "b"; glyph "c"] |}.

End SamplePackage.

(** * Properties *)

(** ** The bit-number grammar *)

Example convert_bits_bit5 : _convert_bits (PyStr "bit 5") = Ok 5.
Proof. reflexivity. Qed.
Example convert_bits_str7 : _convert_bits (PyStr "7") = Ok 7.
Proof. reflexivity. Qed.
Example convert_bits_int7 : _convert_bits (PyInt 7) = Ok 7.
Proof. reflexivity. Qed.
Example convert_bits_bit_nothing :
  _convert_bits (PyStr "bit ") =
  Raise (ValueError "'bit ' is not in correct format. A number must follow after 'bit '.").
Proof. reflexivity. Qed.
Example convert_bits_garbage :
  _convert_bits (PyStr "garbage") =
  Raise (ValueError "'garbage'is neither a number nor 'bit ' format.").
Proof. reflexivity. Qed.
Example convert_bits_float :
  _convert_bits (PyFloat 3 (-1)) = Raise (TypeError "Unsupported type: <class 'float'>").
Proof. reflexivity. Qed.
Example convert_bits_bit_signed : _convert_bits (PyStr "bit -1_0 ") = Ok (-10).
Proof. reflexivity. Qed.
Example str_of_int_ex : str_of_int (-1252) = "-1252" /\ str_of_int 0 = "0".
Proof. split; reflexivity. Qed.
Example int_of_str_spaces :
  int_of_str (String "009" (String "160" "+1_000 ")) = Ok 1000 /\
  is_ok (int_of_str (String "028" "5")) = false /\
  is_ok (int_of_str "- 5") = false /\
  is_ok (int_of_str "1__0") = false /\
  is_ok (int_of_str "") = false.
Proof. repeat split; reflexivity. Qed.
Example convert_bits_superscript :
  isdigit (String "178" "") = true /\
  is_ok (_convert_bits (PyStr (String "178" ""))) = false.
Proof. split; reflexivity. Qed.

Ltac each_ascii c :=
  destruct c as [[|] [|] [|] [|] [|] [|] [|] [|]].

Lemma decimal_is_digit c : is_decimal c = true -> py_isdigit_char c = true.
Proof. each_ascii c; vm_compute; congruence. Qed.

Lemma digit_not_space c : py_isdigit_char c = true -> int_space c = false.
Proof. each_ascii c; vm_compute; congruence. Qed.

Lemma digit_not_underscore c : py_isdigit_char c = true -> Ascii.eqb c "_" = false.
Proof. each_ascii c; vm_compute; congruence. Qed.

Lemma digit_value_decimal c :
  is_decimal c = true -> digit_value c = Some (Z.of_N (code c) - 48).
Proof. each_ascii c; vm_compute; congruence. Qed.

Lemma digit_unsigned c r :
  py_isdigit_char c = true ->
  parse_signed (String c r) = parse_digits 0 false (String c r).
Proof. each_ascii c; intros H; try reflexivity; vm_compute in H; discriminate. Qed.

Lemma lstrip_first p c r : p c = false -> lstrip p (String c r) = String c r.
Proof. intros H. simpl. now rewrite H. Qed.

Lemma rstrip_none p s :
  forallb_string (fun c => negb (p c)) s = true -> rstrip p s = s.
Proof.
  induction s as [|c r IH]; simpl; [reflexivity|].
  intros H. apply andb_true_iff in H as [Hc Hr].
  rewrite (IH Hr). apply negb_true_iff in Hc. rewrite Hc.
  now destruct r.
Qed.

Lemma forallb_string_impl (p q : ascii -> bool) s :
  (forall c, p c = true -> q c = true) ->
  forallb_string p s = true -> forallb_string q s = true.
Proof.
  intros Hpq. induction s as [|c r IH]; simpl; [reflexivity|].
  intros H. apply andb_true_iff in H as [Hc Hr].
  now rewrite (Hpq _ Hc), (IH Hr).
Qed.

Lemma isdigit_cons c r : isdigit (String c r) = py_isdigit_char c && forallb_string py_isdigit_char r.
Proof. reflexivity. Qed.

(** On a string of digit characters [int] sees no space and no sign. *)
Lemma int_of_str_isdigit s :
  isdigit s = true ->
  int_of_str s =
  match parse_digits 0 false s with
  | Some n => Ok n
  | None => Raise (ValueError ("invalid literal for int() with base 10: '" ++ s ++ "'"))
  end.
Proof.
  destruct s as [|c r]; [discriminate|]. intros H.
  unfold int_of_str.
  assert (Hall : forallb_string py_isdigit_char (String c r) = true) by exact H.
  rewrite isdigit_cons in H. apply andb_true_iff in H as [Hc _].
  rewrite (lstrip_first _ _ _ (digit_not_space _ Hc)).
  rewrite rstrip_none.
  - now rewrite (digit_unsigned _ _ Hc).
  - revert Hall. apply forallb_string_impl.
    intros a Ha. now rewrite (digit_not_space _ Ha).
Qed.

Lemma parse_digits_decimal s : forall acc prev,
  forallb_string is_decimal s = true ->
  (s <> EmptyString \/ prev = true) ->
  parse_digits acc prev s = Some (decimal_value_from acc s).
Proof.
  induction s as [|c r IH]; intros acc prev Hall Hne; simpl.
  - destruct Hne as [Hne | ->]; [now elim Hne | reflexivity].
  - simpl in Hall. apply andb_true_iff in Hall as [Hc Hr].
    rewrite (digit_value_decimal _ Hc). apply IH; auto.
Qed.

(** What [parse_digits] accepts on digit characters is made of decimals. *)
Lemma parse_digits_isdigit s : forall acc prev n,
  forallb_string py_isdigit_char s = true ->
  parse_digits acc prev s = Some n ->
  forallb_string is_decimal s = true.
Proof.
  induction s as [|c r IH]; intros acc prev n Hall Hp; simpl; [reflexivity|].
  simpl in Hall. apply andb_true_iff in Hall as [Hc Hr].
  simpl in Hp. unfold is_decimal.
  destruct (digit_value c) as [d|] eqn:Hd.
  - simpl. eapply IH; eauto.
  - rewrite (digit_not_underscore _ Hc) in Hp. discriminate.
Qed.

Lemma decimal_only_isdigit s : decimal_only s = true -> isdigit s = true.
Proof.
  destruct s as [|c r]; [discriminate|]. unfold decimal_only, isdigit.
  apply forallb_string_impl, decimal_is_digit.
Qed.

Lemma int_of_str_decimal s :
  decimal_only s = true -> int_of_str s = Ok (decimal_value s).
Proof.
  intros H. rewrite (int_of_str_isdigit _ (decimal_only_isdigit _ H)).
  destruct s as [|c r]; [discriminate|].
  unfold decimal_value. rewrite parse_digits_decimal; auto.
  left; discriminate.
Qed.

Lemma int_of_str_superscript s :
  isdigit s = true -> decimal_only s = false ->
  int_of_str s = Raise (ValueError ("invalid literal for int() with base 10: '" ++ s ++ "'")).
Proof.
  intros Hd Hn. rewrite (int_of_str_isdigit _ Hd).
  destruct (parse_digits 0 false s) as [n|] eqn:Hp; [|reflexivity].
  destruct s as [|c r]; [discriminate|].
  assert (decimal_only (String c r) = true) by (eapply parse_digits_isdigit; eauto).
  congruence.
Qed.

Lemma int_of_str_raises s e :
  int_of_str s = Raise e ->
  e = ValueError ("invalid literal for int() with base 10: '" ++ s ++ "'").
Proof.
  unfold int_of_str. destruct (parse_signed _); congruence.
Qed.


Lemma convert_bits_str s :
  _convert_bits (PyStr s) =
  if decimal_only s then Ok (decimal_value s)
  else if isdigit s
       then Raise (ValueError ("invalid literal for int() with base 10: '" ++ s ++ "'"))
  else if String.prefix "bit " s then
    match int_of_str (drop 4 s) with
    | Ok n => Ok n
    | Raise _ =>
        Raise (ValueError ("'" ++ s ++ "' is not in correct format. A number must follow after 'bit '."))
    end
  else Raise (ValueError ("'" ++ s ++ "'is neither a number nor 'bit ' format.")).
Proof.
  unfold _convert_bits.
  destruct (decimal_only s) eqn:Hdec.
  - now rewrite (decimal_only_isdigit _ Hdec), int_of_str_decimal.
  - destruct (isdigit s) eqn:Hd.
    + now apply int_of_str_superscript.
    + destruct (String.prefix "bit " s); [|reflexivity].
      destruct (int_of_str (drop 4 s)) as [n|e] eqn:Hi; [reflexivity|].
      now rewrite (int_of_str_raises _ _ Hi).
Qed.


(** ** [int] reads what [str] prints *)

Lemma string_of_uint_decimal d :
  forallb_string is_decimal (NilEmpty.string_of_uint d) = true.
Proof. induction d; simpl; auto. Qed.

Lemma decimal_value_of_uint_acc d : forall p,
  decimal_value_from (Z.pos p) (NilEmpty.string_of_uint d) = Z.pos (Pos.of_uint_acc d p).
Proof.
  induction d; intros p; cbn [NilEmpty.string_of_uint decimal_value_from Pos.of_uint_acc];
    try reflexivity;
    match goal with
    | |- decimal_value_from ?a _ = Z.pos (Pos.of_uint_acc _ ?q) =>
        replace a with (Z.pos q) by (vm_compute code; lia); apply IHd
    end.
Qed.

Lemma decimal_value_of_uint d :
  decimal_value_from 0 (NilEmpty.string_of_uint d) = Z.of_N (Pos.of_uint d).
Proof.
  induction d; cbn [NilEmpty.string_of_uint decimal_value_from Pos.of_uint];
    try reflexivity; try exact IHd;
    match goal with
    | |- decimal_value_from ?a _ = _ =>
        let v := eval vm_compute in a in change a with v
    end; apply decimal_value_of_uint_acc.
Qed.

Lemma str_of_positive p :
  decimal_only (NilEmpty.string_of_uint (Pos.to_uint p)) = true /\
  decimal_value (NilEmpty.string_of_uint (Pos.to_uint p)) = Z.pos p.
Proof.
  split.
  - pose proof (DecimalPos.Unsigned.to_uint_nonnil p) as Hn.
    pose proof (string_of_uint_decimal (Pos.to_uint p)) as Hd.
    destruct (Pos.to_uint p); try (now elim Hn); exact Hd.
  - unfold decimal_value. rewrite decimal_value_of_uint.
    now rewrite DecimalPos.Unsigned.of_to.
Qed.

Lemma nilzero_positive p :
  NilZero.string_of_uint (Pos.to_uint p) = NilEmpty.string_of_uint (Pos.to_uint p).
Proof.
  pose proof (DecimalPos.Unsigned.to_uint_nonnil p) as Hn.
  now destruct (Pos.to_uint p).
Qed.

Lemma decimal_not_space c : is_decimal c = true -> negb (int_space c) = true.
Proof. intros H. now rewrite (digit_not_space _ (decimal_is_digit _ H)). Qed.

Lemma int_of_str_of_int k : int_of_str (str_of_int k) = Ok k.
Proof.
  destruct k as [|p|p]; [reflexivity| |].
  - unfold str_of_int. cbn [Z.to_int NilZero.string_of_int].
    rewrite nilzero_positive.
    destruct (str_of_positive p) as [Hd Hv].
    now rewrite int_of_str_decimal, Hv.
  - unfold str_of_int. cbn [Z.to_int NilZero.string_of_int].
    rewrite nilzero_positive.
    destruct (str_of_positive p) as [Hd Hv].
    set (digits := NilEmpty.string_of_uint (Pos.to_uint p)) in *.
    assert (Hall : forallb_string is_decimal digits = true)
      by apply string_of_uint_decimal.
    unfold int_of_str.
    rewrite lstrip_first by reflexivity.
    rewrite rstrip_none.
    + cbn [parse_signed].
      rewrite parse_digits_decimal; auto.
      * unfold decimal_value in Hv. now rewrite Hv.
      * left. intros E. rewrite E in Hd. discriminate.
    + cbn [forallb_string]. apply andb_true_iff. split; [reflexivity|].
      revert Hall. apply forallb_string_impl, decimal_not_space.
Qed.

Lemma str_of_int_inj a b : str_of_int a = str_of_int b -> a = b.
Proof.
  intros H. pose proof (int_of_str_of_int a) as Ha.
  rewrite H, int_of_str_of_int in Ha. congruence.
Qed.

(** ** Dictionaries *)

Lemma lookup_dict_set_same key v items : lookup key (dict_set key v items) = Some v.
Proof.
  induction items as [|[k x] rest IH]; simpl.
  - now rewrite String.eqb_refl.
  - destruct (String.eqb k key) eqn:E; simpl; now rewrite E.
Qed.

Lemma lookup_dict_set_other key key' v items :
  key' <> key -> lookup key' (dict_set key v items) = lookup key' items.
Proof.
  intros Hne. induction items as [|[k x] rest IH]; simpl.
  - destruct (String.eqb_spec key key'); congruence.
  - destruct (String.eqb_spec k key) as [->|Hk]; simpl.
    + destruct (String.eqb_spec key key'); congruence.
    + now rewrite IH.
Qed.

Lemma keys_dict_set key v items :
  lookup key items <> None ->
  List.map fst (dict_set key v items) = List.map fst items.
Proof.
  induction items as [|[k x] rest IH]; simpl; [congruence|].
  destruct (String.eqb k key); simpl; [reflexivity|].
  intros H. now rewrite IH.
Qed.

Lemma dict_set_twice key v v' items :
  dict_set key v (dict_set key v' items) = dict_set key v items.
Proof.
  induction items as [|[k x] rest IH]; simpl.
  - now rewrite String.eqb_refl.
  - destruct (String.eqb k key) eqn:E; simpl; rewrite E; [reflexivity|].
    now rewrite IH.
Qed.

(** ** Code-page normalization *)

Section CodepageProperties.

Variable CODEPAGE_RANGES : list (Z * Z).

Local Open Scope list_scope.


Lemma in_keys_int page :
  (in_keys CODEPAGE_RANGES) page = true ->
  exists k, py_int page = Ok k /\ In k (List.map fst CODEPAGE_RANGES).
Proof.
  unfold in_keys, CODEPAGE_RANGES_KEYS.
  destruct (py_str page) as [s|] eqn:Hs; [|discriminate].
  intros H. apply existsb_exists in H as [key [Hin Heq]].
  apply String.eqb_eq in Heq. subst key.
  apply in_map_iff in Hin as [[k b] [Hk Hin]]. simpl in Hk.
  exists k. split; [|apply in_map_iff; now exists (k, b)].
  destruct page; simpl in Hs; try discriminate; injection Hs as <-; simpl.
  - f_equal. now apply str_of_int_inj.
  - rewrite <- Hk. apply int_of_str_of_int.
Qed.


Lemma mapM_length {A B} (f : A -> result B) l ys :
  mapM f l = Ok ys -> List.length ys = List.length l.
Proof.
  revert ys. induction l as [|x rest IH]; simpl; intros ys H.
  - now injection H as <-.
  - destruct (f x); [|discriminate]. simpl in H.
    destruct (mapM f rest) eqn:E; [|discriminate].
    injection H as <-. simpl. now rewrite (IH _ eq_refl).
Qed.

Lemma split_pages_ok pages : forall s0 u0 s u,
  mapM py_int (filter (in_keys CODEPAGE_RANGES) pages) = Ok s ->
  mapM _convert_bits (filter (not_in_keys CODEPAGE_RANGES) pages) = Ok u ->
  split_pages CODEPAGE_RANGES pages s0 u0 = Ok (s0 ++ s, u0 ++ u).
Proof.
  unfold not_in_keys.
  induction pages as [|page rest IH]; simpl; intros s0 u0 s u Hs Hu.
  - injection Hs as <-. injection Hu as <-. now rewrite !app_nil_r.
  - destruct ((in_keys CODEPAGE_RANGES) page); simpl in Hs, Hu.
    + destruct (py_int page) as [n|]; [|discriminate]. simpl in *.
      destruct (mapM py_int _) as [s'|] eqn:E; [|discriminate].
      injection Hs as <-. rewrite (IH _ _ s' u eq_refl Hu).
      now rewrite <- app_assoc.
    + destruct (_convert_bits page) as [b|]; [|discriminate]. simpl in *.
      destruct (mapM _convert_bits _) as [u'|] eqn:E; [|discriminate].
      injection Hu as <-. rewrite (IH _ _ s u' Hs eq_refl).
      now rewrite <- app_assoc.
Qed.

Lemma split_pages_inv pages : forall s0 u0 s' u',
  split_pages CODEPAGE_RANGES pages s0 u0 = Ok (s', u') ->
  exists s u,
    mapM py_int (filter (in_keys CODEPAGE_RANGES) pages) = Ok s /\
    mapM _convert_bits (filter (not_in_keys CODEPAGE_RANGES) pages) = Ok u /\
    s' = s0 ++ s /\ u' = u0 ++ u.
Proof.
  unfold not_in_keys.
  induction pages as [|page rest IH]; simpl; intros s0 u0 s' u' H.
  - injection H as <- <-. exists [], []. now rewrite !app_nil_r.
  - destruct ((in_keys CODEPAGE_RANGES) page); simpl.
    + destruct (py_int page) as [n|]; [|discriminate]. simpl in *.
      destruct (IH _ _ _ _ H) as [s [u [Hs [Hu [-> ->]]]]].
      exists (n :: s), u. rewrite Hs. simpl. now rewrite <- app_assoc.
    + destruct (_convert_bits page) as [b|]; [|discriminate]. simpl in *.
      destruct (IH _ _ _ _ H) as [s [u [Hs [Hu [-> ->]]]]].
      exists s, (b :: u). rewrite Hu. simpl. now rewrite <- app_assoc.
Qed.

Lemma keep_params_named params : forall kept,
  forallb has_name params = true ->
  keep_params params kept = Ok (kept ++ filter not_codepage_param params).
Proof.
  induction params as [|q rest IH]; simpl; intros kept H.
  - now rewrite app_nil_r.
  - apply andb_true_iff in H as [Hq Hrest].
    unfold has_name in Hq. unfold not_codepage_param at 1, is_codepage_param.
    destruct (py_getitem q "name") as [name|]; [|discriminate]. simpl.
    destruct (is_codepage_name name); simpl; rewrite IH; auto.
    now rewrite <- app_assoc.
Qed.

Lemma find_codepages_first before first after :
  forallb has_name before = true ->
  forallb not_codepage_param before = true ->
  is_codepage_param first = true ->
  find_codepages (before ++ first :: after) =
  (v <- py_getitem first "value" ;; Ok (Some v)).
Proof.
  intros Hn Hc Hf. induction before as [|q rest IH]; simpl.
  - unfold is_codepage_param in Hf.
    destruct (py_getitem first "name") as [name|]; [|discriminate]. simpl.
    now rewrite Hf.
  - simpl in Hn, Hc.
    apply andb_true_iff in Hn as [Hq Hn]. apply andb_true_iff in Hc as [Hq' Hc].
    unfold has_name in Hq. unfold not_codepage_param, is_codepage_param in Hq'.
    destruct (py_getitem q "name") as [name|]; [|discriminate]. simpl.
    apply negb_true_iff in Hq'. rewrite Hq'. auto.
Qed.

Lemma emit_app name values kept :
  emit name values kept = kept ++ emit name values [].
Proof. destruct values; simpl; [now rewrite app_nil_r | reflexivity]. Qed.

Lemma filter_first_codepage before first after :
  is_codepage_param first = true ->
  filter not_codepage_param (before ++ first :: after) =
  filter not_codepage_param before ++ filter not_codepage_param after.
Proof.
  intros H. rewrite filter_app. simpl. unfold not_codepage_param at 2.
  now rewrite H.
Qed.

(** The whole normalization, once the first code-page parameter and its
    pages are known. *)
Lemma process_codepage_ranges_first items params before first after codepages pages :
  lookup "customParameters" items = Some (PyList params) ->
  first_codepage_param params before first after ->
  py_getitem first "value" = Ok codepages ->
  py_iter codepages = Ok pages ->
  _process_codepage_ranges CODEPAGE_RANGES (PyDict items) =
  ('(supported, unsupported) <- split_pages CODEPAGE_RANGES pages [] [] ;;
   Ok (PyDict (with_params items
                 (filter not_codepage_param params ++ emitted supported unsupported)))).
Proof.
  intros Hl (-> & Hn & Hc & Hf) Hv Hp.
  unfold _process_codepage_ranges. cbn [py_get py_getitem]. rewrite Hl.
  cbn [bind py_iter].
  assert (Hnb : forallb has_name before = true).
  { rewrite forallb_app in Hn. now apply andb_true_iff in Hn as [? _]. }
  rewrite (find_codepages_first _ _ _ Hnb Hc Hf), Hv. cbn [bind]. rewrite Hp.
  cbn [bind].
  destruct (split_pages CODEPAGE_RANGES pages [] []) as [[s u]|e]; [|reflexivity].
  cbn [bind]. rewrite (keep_params_named _ _ Hn). cbn [bind app].
  unfold with_params, emitted.
  now rewrite (emit_app _ u), (emit_app _ s), (emit_app _ u (emit _ s [])), app_assoc.
Qed.




Lemma named_is_codepage name q :
  is_codepage_name (PyStr name) = true -> is_named name q = true ->
  not_codepage_param q = false.
Proof.
  unfold is_named, not_codepage_param, is_codepage_param.
  destruct (py_getitem q "name") as [[| |s| | |]|]; try discriminate.
  intros Hn Hs. apply String.eqb_eq in Hs. subst s. now rewrite Hn.
Qed.

Lemma named_not_codepage name q :
  is_codepage_name (PyStr name) = false -> is_named name q = true ->
  not_codepage_param q = true.
Proof.
  unfold is_named, not_codepage_param, is_codepage_param.
  destruct (py_getitem q "name") as [[| |s| | |]|]; try discriminate.
  intros Hn Hs. apply String.eqb_eq in Hs. subst s. now rewrite Hn.
Qed.

Lemma count_named_app name l l' :
  count_named name (l ++ l') = (count_named name l + count_named name l')%nat.
Proof. unfold count_named. now rewrite filter_app, length_app. Qed.

Lemma count_named_kept_codepage name params :
  is_codepage_name (PyStr name) = true ->
  count_named name (filter not_codepage_param params) = O.
Proof.
  intros Hn. unfold count_named.
  induction params as [|q rest IH]; simpl; [reflexivity|].
  destruct (not_codepage_param q) eqn:Hq; [|exact IH]. simpl.
  destruct (is_named name q) eqn:Hnamed; [|exact IH].
  rewrite (named_is_codepage _ _ Hn Hnamed) in Hq. discriminate.
Qed.

Lemma count_named_kept_other name params :
  is_codepage_name (PyStr name) = false ->
  count_named name (filter not_codepage_param params) = count_named name params.
Proof.
  intros Hn. unfold count_named.
  induction params as [|q rest IH]; simpl; [reflexivity|].
  destruct (not_codepage_param q) eqn:Hq; simpl.
  - destruct (is_named name q); simpl; now rewrite IH.
  - destruct (is_named name q) eqn:Hnamed; [|exact IH].
    rewrite (named_not_codepage _ _ Hn Hnamed) in Hq. discriminate.
Qed.

Lemma existsb_filter_length {A} (f : A -> bool) l :
  existsb f l = negb (Nat.eqb (List.length (filter f l)) 0).
Proof.
  induction l as [|x rest IH]; simpl; [reflexivity|].
  now destruct (f x).
Qed.

(** C9. With several parameters named codePageRanges or
    openTypeOS2CodePageRanges, normalization reads the values of the
    first one only, and its output keeps no input parameter of either
    name: the later ones can be changed, added or removed without any
    effect on the result. *)
Theorem later_codepage_parameters_dropped
        items before first after codepages pages :
  first_codepage_param (before ++ first :: after) before first after ->
  py_getitem first "value" = Ok codepages ->
  py_iter codepages = Ok pages ->
  (forall after',
      first_codepage_param (before ++ first :: after') before first after' ->
      filter not_codepage_param after' = filter not_codepage_param after ->
      _process_codepage_ranges CODEPAGE_RANGES
        (PyDict (with_params items (before ++ first :: after'))) =
      _process_codepage_ranges CODEPAGE_RANGES
        (PyDict (with_params items (before ++ first :: after)))) /\
  (forall out,
      _process_codepage_ranges CODEPAGE_RANGES
        (PyDict (with_params items (before ++ first :: after))) = Ok out ->
      exists supported unsupported,
        split_pages CODEPAGE_RANGES pages [] [] = Ok (supported, unsupported) /\
        out = PyDict (with_params items
                        (filter not_codepage_param before
                         ++ filter not_codepage_param after
                         ++ emitted supported unsupported))).
Proof.
  intros Hfirst Hv Hp.
  assert (Heq : forall rest,
             first_codepage_param (before ++ first :: rest) before first rest ->
             _process_codepage_ranges CODEPAGE_RANGES
               (PyDict (with_params items (before ++ first :: rest))) =
             ('(supported, unsupported) <- split_pages CODEPAGE_RANGES pages [] [] ;;
              Ok (PyDict (with_params items
                            (filter not_codepage_param before
                             ++ filter not_codepage_param rest
                             ++ emitted supported unsupported))))).
  { intros rest Hrest.
    rewrite (process_codepage_ranges_first
               (with_params items (before ++ first :: rest))
               _ _ _ _ _ _ (lookup_dict_set_same _ _ _) Hrest Hv Hp).
    destruct Hrest as (_ & _ & _ & Hf).
    destruct (split_pages CODEPAGE_RANGES pages [] []) as [[s u]|e]; [|reflexivity].
    cbn [bind]. unfold with_params. rewrite dict_set_twice.
    now rewrite (filter_first_codepage _ _ _ Hf), <- app_assoc. }
  split.
  - intros after' Hfirst' Hsame.
    now rewrite (Heq _ Hfirst'), (Heq _ Hfirst), Hsame.
  - intros out Hout. rewrite (Heq _ Hfirst) in Hout.
    destruct (split_pages CODEPAGE_RANGES pages [] []) as [[s u]|e]; [|discriminate].
    cbn [bind] in Hout. injection Hout as <-. now exists s, u.
Qed.

(** C10, amended. After normalization the output has exactly one
    codePageRanges parameter when some value of the consumed parameter
    is in the table and none otherwise; it has one
    codePageRangesUnsupportedBits parameter more than the input when
    some value is not in the table and as many as the input otherwise;
    it has no openTypeOS2CodePageRanges parameter; and no appended
    parameter has an empty value list. *)
Theorem codepage_parameters_emitted
        items params before first after codepages pages out :
  lookup "customParameters" items = Some (PyList params) ->
  first_codepage_param params before first after ->
  py_getitem first "value" = Ok codepages ->
  py_iter codepages = Ok pages ->
  _process_codepage_ranges CODEPAGE_RANGES (PyDict items) = Ok out ->
  exists supported unsupported,
    let new_params :=
      filter not_codepage_param params ++ emitted supported unsupported in
    out = PyDict (with_params items new_params) /\
    List.length supported = List.length (filter (in_keys CODEPAGE_RANGES) pages) /\
    List.length unsupported = List.length (filter (not_in_keys CODEPAGE_RANGES) pages) /\
    count_named "codePageRanges" new_params =
      (if existsb (in_keys CODEPAGE_RANGES) pages then 1 else 0)%nat /\
    count_named "codePageRangesUnsupportedBits" new_params =
      (count_named "codePageRangesUnsupportedBits" params
       + if existsb (not_in_keys CODEPAGE_RANGES) pages then 1 else 0)%nat /\
    count_named "openTypeOS2CodePageRanges" new_params = O /\
    Forall (fun q => exists name values,
                q = custom_parameter name values /\ values <> [])
           (emitted supported unsupported).
Proof.
  intros Hl Hfirst Hv Hp Hout.
  rewrite (process_codepage_ranges_first _ _ _ _ _ _ _ Hl Hfirst Hv Hp) in Hout.
  destruct (split_pages CODEPAGE_RANGES pages [] []) as [[s u]|e] eqn:Hsplit;
    [|discriminate].
  cbn [bind] in Hout. injection Hout as <-.
  apply split_pages_inv in Hsplit as (s' & u' & Hs & Hu & Es & Eu).
  simpl in Es, Eu. subst s' u'.
  apply mapM_length in Hs. apply mapM_length in Hu.
  exists s, u. cbv zeta.
  rewrite !count_named_app.
  rewrite (count_named_kept_codepage "codePageRanges") by reflexivity.
  rewrite (count_named_kept_codepage "openTypeOS2CodePageRanges") by reflexivity.
  rewrite count_named_kept_other by reflexivity.
  rewrite !existsb_filter_length, <- Hs, <- Hu.
  repeat split; try assumption.
  - destruct s, u; reflexivity.
  - destruct s, u; reflexivity.
  - destruct s, u; reflexivity.
  - unfold emitted.
    destruct s as [|a s], u as [|b u]; cbn [emit app]; repeat constructor;
      eexists _, _; (split; [reflexivity | discriminate]).
Qed.

End CodepageProperties.

(** ** Normalization of the sample font *)

Example process_sample_font :
  _process_codepage_ranges Sample.table (PyDict Sample.font) =
  Ok (PyDict (Sample.font_with
                [ Sample.note;
                  custom_parameter "codePageRanges" [1252; 1250];
                  custom_parameter "codePageRangesUnsupportedBits" [29; 30] ])).
Proof. reflexivity. Qed.


Lemma later_codepage_parameters_dropped_witness :
  first_codepage_param [Sample.note; Sample.first; Sample.later]
                       [Sample.note] Sample.first [Sample.later] /\
  first_codepage_param [Sample.note; Sample.first] [Sample.note] Sample.first [] /\
  _process_codepage_ranges Sample.table
    (PyDict (with_params Sample.font [Sample.note; Sample.first])) =
  _process_codepage_ranges Sample.table
    (PyDict (with_params Sample.font [Sample.note; Sample.first; Sample.later])).
Proof.
  assert (Hfirst : first_codepage_param [Sample.note; Sample.first; Sample.later]
                     [Sample.note] Sample.first [Sample.later])
    by (repeat split; reflexivity).
  assert (Hfirst' : first_codepage_param [Sample.note; Sample.first]
                      [Sample.note] Sample.first [])
    by (repeat split; reflexivity).
  split; [exact Hfirst|]. split; [exact Hfirst'|].
  exact (proj1 (later_codepage_parameters_dropped Sample.table Sample.font
                  [Sample.note] Sample.first [Sample.later]
                  (PyList Sample.pages) Sample.pages Hfirst eq_refl eq_refl)
               [] Hfirst' eq_refl).
Defined.

Lemma codepage_parameters_emitted_witness :
  first_codepage_param [Sample.old_bits; Sample.known_pages]
                       [Sample.old_bits] Sample.known_pages [] /\
  exists supported unsupported,
    _process_codepage_ranges Sample.table (PyDict Sample.font_with_old_bits) =
    Ok (PyDict (with_params Sample.font_with_old_bits
                  ([Sample.old_bits] ++ emitted supported unsupported))) /\
    count_named "codePageRangesUnsupportedBits"
                ([Sample.old_bits] ++ emitted supported unsupported) = 1%nat.
Proof.
  assert (Hfirst : first_codepage_param [Sample.old_bits; Sample.known_pages]
                     [Sample.old_bits] Sample.known_pages [])
    by (repeat split; reflexivity).
  split; [exact Hfirst|].
  destruct (codepage_parameters_emitted Sample.table Sample.font_with_old_bits
              _ _ _ _ (PyList [PyInt 1252]) [PyInt 1252] _
              eq_refl Hfirst eq_refl eq_refl eq_refl)
    as (supported & unsupported & Hout & _ & _ & _ & Hbits & _).
  exists supported, unsupported. split; [|exact Hbits].
  change (filter not_codepage_param [Sample.old_bits; Sample.known_pages])
    with [Sample.old_bits] in Hout.
  rewrite <- Hout. reflexivity.
Defined.

(** C10, as stated, fails: every value of the consumed parameter is in the
    table, and the output still has a codePageRangesUnsupportedBits
    parameter, the one the input carried. *)
Lemma unsupported_bits_without_unsupported_value :
  exists new_params,
    _process_codepage_ranges Sample.table (PyDict Sample.font_with_old_bits) =
    Ok (PyDict [("customParameters", PyList new_params)]) /\
    ~ (existsb (is_named "codePageRangesUnsupportedBits") new_params = true <->
       existsb (not_in_keys Sample.table) [PyInt 1252] = true).
Proof.
  eexists. split; [reflexivity|].
  intros [H _]. specialize (H eq_refl). discriminate H.
Qed.

(** ** The order of the glyphs of a package *)

Section GlyphOrder.

Local Open Scope list_scope.

Lemma ascii_compare_N a b :
  Ascii.compare a b = N.compare (N_of_ascii a) (N_of_ascii b).
Proof. reflexivity. Qed.

Lemma string_lt_trans a : forall b c,
  String.compare a b = Lt -> String.compare b c = Lt -> String.compare a c = Lt.
Proof.
  induction a as [|x a IH]; intros [|y b] [|z c]; simpl; try congruence.
  rewrite !ascii_compare_N.
  destruct (N.compare_spec (N_of_ascii x) (N_of_ascii y)) as [Hxy|Hxy|Hxy];
    destruct (N.compare_spec (N_of_ascii y) (N_of_ascii z)) as [Hyz|Hyz|Hyz];
    destruct (N.compare_spec (N_of_ascii x) (N_of_ascii z)) as [Hxz|Hxz|Hxz];
    try congruence; try lia.
  apply IH.
Qed.

Lemma string_le_trans a b c :
  String.ltb b a = false -> String.ltb c b = false -> String.ltb c a = false.
Proof.
  unfold String.ltb. intros Hab Hbc.
  destruct (String.compare c a) eqn:Hca; try reflexivity.
  destruct (String.compare b a) eqn:Hba; try discriminate.
  - apply String.compare_eq_iff in Hba. subst b. now rewrite Hca in Hbc.
  - destruct (String.compare c b) eqn:Hcb; try discriminate.
    + apply String.compare_eq_iff in Hcb. subst c. congruence.
    + rewrite String.compare_antisym in Hba, Hcb.
      destruct (String.compare a b) eqn:Hab'; try discriminate.
      destruct (String.compare b c) eqn:Hbc'; try discriminate.
      pose proof (string_lt_trans _ _ _ Hab' Hbc') as Hac.
      rewrite String.compare_antisym, Hac in Hca. discriminate.
Qed.

Lemma string_lt_asym a b : String.ltb a b = true -> String.ltb b a = false.
Proof.
  unfold String.ltb. rewrite (String.compare_antisym a b).
  destruct (String.compare b a); simpl; congruence.
Qed.

Lemma key_le_trans a b c : key_le a b -> key_le b c -> key_le a c.
Proof.
  unfold key_le.
  destruct a as [i|s], b as [j|t], c as [k|u]; simpl; try congruence.
  - rewrite !Nat.ltb_ge. lia.
  - apply string_le_trans.
Qed.

Lemma key_lt_le a b : key_lt a b = true -> key_le a b.
Proof.
  unfold key_le. destruct a as [i|s], b as [j|t]; simpl; try congruence.
  - rewrite Nat.ltb_lt, Nat.ltb_ge. lia.
  - apply string_lt_asym.
Qed.

Context {A : Type} (key : A -> SortKey).

Lemma insert_sorted_perm x l : Permutation (x :: l) (insert_sorted key x l).
Proof.
  induction l as [|y rest IH]; simpl; [reflexivity|].
  destruct (key_lt (key y) (key x)); [|reflexivity].
  rewrite perm_swap. now apply perm_skip.
Qed.


Lemma insert_sorted_ordered x l :
  StronglySorted (in_key_order key) l ->
  StronglySorted (in_key_order key) (insert_sorted key x l).
Proof.
  induction 1 as [|y rest Hsorted IH Hall]; simpl.
  - repeat constructor.
  - destruct (key_lt (key y) (key x)) eqn:Hlt.
    + constructor; [exact IH|].
      rewrite <- insert_sorted_perm. constructor; [|exact Hall].
      now apply key_lt_le.
    + constructor; [now constructor|].
      constructor; [exact Hlt|].
      eapply Forall_impl; [|exact Hall].
      intros z Hz. eapply key_le_trans; [exact Hlt | exact Hz].
Qed.

Lemma sorted_ordered l : StronglySorted (in_key_order key) (sorted key l).
Proof.
  induction l as [|x rest IH]; simpl; [constructor|].
  now apply insert_sorted_ordered.
Qed.


End GlyphOrder.

Lemma glyph_key_order glyphorder a b :
  key_le (sort_key glyphorder a) (sort_key glyphorder b) ->
  glyph_precedes glyphorder a b.
Proof.
  unfold key_le, sort_key, glyph_precedes.
  destruct (index (glyphname a) glyphorder), (index (glyphname b) glyphorder); simpl;
    try congruence; try easy.
  - rewrite Nat.ltb_ge. lia.
  - unfold String.ltb, String.leb.
    rewrite (String.compare_antisym (glyphname b)).
    now destruct (String.compare (glyphname a) (glyphname b)).
Qed.


(** ** The walk over a dictionary *)

Section WalkProperties.

Variable classes : nat -> PyClass.
Variable parse : PyValue -> Parser -> result (PyValue * Parser).

Lemma mutate_rebound w r :
  rebound w <> None ->
  caller_object (mutate w r) = caller_object w /\ rebound (mutate w r) <> None.
Proof.
  unfold mutate. destruct (rebound w); [|congruence].
  intros _. simpl. split; congruence.
Qed.

(** Once [res] is rebound, the rest of the walk writes to the fresh dict
    and leaves the caller's object alone. *)
Lemma walk_rebound d : forall w self w' self',
  rebound w <> None ->
  walk classes parse d w self = Ok (w', self') ->
  caller_object w' = caller_object w /\ rebound w' <> None.
Proof.
  induction d as [|[name value] rest IH]; intros w self w' self' Hw H.
  - simpl in H. injection H as <- <-. auto.
  - cbn [walk] in H.
    destruct (hook_of classes (res_of w) _) as [h|].
    + destruct (call_hook (res_of w) h value) as [r|]; [|discriminate].
      cbn [bind] in H. destruct (mutate_rebound w r Hw) as [Hc Hr].
      destruct (IH _ _ _ _ Hr H) as [Hc' Hr']. split; congruence.
    + destruct (isinstance_dict classes (res_of w)).
      * destruct (parse value self) as [[result self1]|]; [|discriminate].
        cbn [bind] in H.
        destruct (setitem classes (res_of w) name result) as [r|e].
        -- destruct (mutate_rebound w r Hw) as [Hc Hr].
           destruct (IH _ _ _ _ Hr H) as [Hc' Hr']. split; congruence.
        -- assert (Hrec : walk classes parse rest
                            {| caller_object := caller_object w;
                               rebound := Some (PyDict [(name, result)]) |} self1
                          = Ok (w', self')).
           { destruct e; try discriminate; exact H. }
           apply IH in Hrec; [exact Hrec | discriminate].
      * destruct (setitem classes (res_of w) name value) as [r|]; [|discriminate].
        cbn [bind] in H. destruct (mutate_rebound w r Hw) as [Hc Hr].
        destruct (IH _ _ _ _ Hr H) as [Hc' Hr']. split; congruence.
Qed.

(** C2, what the code does. When the target rejects the assignment of
    the parsed value, the walk goes on without an error, but the fresh
    dict that receives the value is bound to the local name only: the
    object the caller holds, which [_parse_dict] returns, is left as it
    was and holds neither this value nor any later one. *)
Theorem rejected_assignment_loses_value
        res name value rest self result self1 e w self' :
  hook_of classes res ("_parse_" ++ sane name ++ "_dict") = None ->
  isinstance_dict classes res = true ->
  parse value self = Ok (result, self1) ->
  setitem classes res name result = Raise e ->
  rejects e = true ->
  _parse_dict_into_object_with classes parse res ((name, value) :: rest) self
    = Ok (w, self') ->
  caller_object w = res /\ rebound w <> None.
Proof.
  intros Hhook Hdict Hparse Hset Hrej H.
  unfold _parse_dict_into_object_with in H. cbn [walk] in H.
  unfold res_of in H. cbn [rebound caller_object] in H.
  rewrite Hhook, Hdict, Hparse in H. cbn [bind] in H. rewrite Hset in H.
  assert (Hrec : walk classes parse rest
                   {| caller_object := res;
                      rebound := Some (PyDict [(name, result)]) |} self1
                 = Ok (w, self')).
  { destruct e; try discriminate; exact H. }
  apply walk_rebound in Hrec; [exact Hrec | discriminate].
Qed.

End WalkProperties.

Example strict_target_loses_values :
  _parse Sample.strict_classes Sample.document None Sample.strict_parser
  = Ok (PyInst 0 [], Sample.strict_parser).
Proof. reflexivity. Qed.

Lemma rejected_assignment_loses_value_witness :
  setitem Sample.strict_classes (PyInst 0 []) "a" (PyInt 1)
    = Raise (TypeError "cannot store a") /\
  exists w self',
    _parse_dict_into_object Sample.strict_classes (PyInst 0 [])
      [("a", PyInt 1); ("b", PyList [PyInt 2])] Sample.strict_parser = Ok (w, self') /\
    caller_object w = PyInst 0 [] /\ rebound w <> None.
Proof.
  split; [reflexivity|].
  eexists _, _. split; [reflexivity|].
  exact (rejected_assignment_loses_value Sample.strict_classes
           (fun x => _parse Sample.strict_classes x None)
           (PyInst 0 []) "a" (PyInt 1) [("b", PyList [PyInt 2])]
           Sample.strict_parser (PyInt 1) Sample.strict_parser
           (TypeError "cannot store a") _ _
           eq_refl eq_refl eq_refl eq_refl eq_refl eq_refl).
Defined.

(** ** The default parser returns the decoded value *)

Section DefaultParser.

Local Open Scope list_scope.

Variable classes : nat -> PyClass.

Lemma PyValue_nested_ind (P : PyValue -> Prop) :
  (forall n, P (PyInt n)) ->
  (forall m e, P (PyFloat m e)) ->
  (forall s, P (PyStr s)) ->
  (forall xs, Forall P xs -> P (PyList xs)) ->
  (forall items, Forall (fun kv => P (snd kv)) items -> P (PyDict items)) ->
  (forall c items, Forall (fun kv => P (snd kv)) items -> P (PyInst c items)) ->
  forall v, P v.
Proof.
  intros Hint Hfloat Hstr Hlist Hdict Hinst.
  fix IH 1.
  intros [n|m e|s|xs|items|c items];
    [apply Hint | apply Hfloat | apply Hstr | | | ].
  - apply Hlist. induction xs as [|x rest IHrest]; constructor;
      [apply IH | exact IHrest].
  - apply Hdict. induction items as [|[k x] rest IHrest]; constructor;
      [apply IH | exact IHrest].
  - apply Hinst. induction items as [|[k x] rest IHrest]; constructor;
      [apply IH | exact IHrest].
Qed.

Lemma set_current_type_same self : set_current_type self (current_type self) = self.
Proof. now destruct self. Qed.

Lemma lookup_app key (a b : dict) :
  lookup key (a ++ b) = match lookup key a with Some v => Some v | None => lookup key b end.
Proof.
  induction a as [|[k x] rest IH]; simpl; [reflexivity|].
  now destruct (String.eqb k key).
Qed.

Lemma dict_set_fresh key v items :
  lookup key items = None -> dict_set key v items = items ++ [(key, v)].
Proof.
  induction items as [|[k x] rest IH]; simpl; [reflexivity|].
  destruct (String.eqb k key); [discriminate|]. intros H. now rewrite IH.
Qed.

Lemma walk_plain parse self items : forall acc,
  Forall (fun kv => parse (snd kv) self = Ok (snd kv, self)) items ->
  distinct (List.map fst items) = true ->
  (forall k, In k (List.map fst items) -> lookup k acc = None) ->
  walk classes parse items {| caller_object := PyDict acc; rebound := None |} self
  = Ok ({| caller_object := PyDict (acc ++ items); rebound := None |}, self).
Proof.
  induction items as [|[name value] rest IH]; intros acc Hp Hd Hfresh.
  - simpl. now rewrite app_nil_r.
  - apply Forall_cons_iff in Hp as [Hv Hp]. simpl in Hv, Hd.
    apply andb_true_iff in Hd as [Hname Hd].
    cbn [walk]. unfold res_of. cbn [rebound caller_object hook_of isinstance_dict].
    rewrite Hv. cbn [bind setitem].
    rewrite dict_set_fresh by (apply Hfresh; now left).
    unfold mutate. cbn [rebound].
    rewrite IH; auto.
    + now rewrite <- app_assoc.
    + intros k Hk. rewrite lookup_app, (Hfresh k) by (now right). simpl.
      destruct (String.eqb_spec name k) as [->|]; [|reflexivity].
      apply negb_true_iff in Hname.
      assert (existsb (String.eqb k) (List.map fst rest) = true).
      { apply existsb_exists. exists k. split; [exact Hk | apply String.eqb_refl]. }
      congruence.
Qed.

Lemma map_parse_identity each new_type xs self :
  Forall (fun x => each x new_type self = Ok (x, self)) xs ->
  map_parse new_type each xs self = Ok (xs, self).
Proof.
  induction 1 as [|x rest Hx _ IH]; simpl; [reflexivity|].
  rewrite Hx. cbn [bind]. now rewrite IH.
Qed.

(** With a plain target type the object builder rebuilds the decoded
    value as it is, every item in its place. *)
Lemma parse_plain_identity v : forall self,
  decoder_value v = true ->
  plain_type (current_type self) = true ->
  _parse classes v None self = Ok (v, self).
Proof.
  induction v as [n|m e|s|xs IH|items IH|c items _] using PyValue_nested_ind;
    intros self Hv Hplain; [| | | | |discriminate Hv]; cbn [_parse py_or];
    rewrite ?set_current_type_same; try reflexivity.
  - rewrite map_parse_identity; [reflexivity|].
    simpl in Hv. rewrite forallb_forall in Hv. rewrite Forall_forall in *.
    intros x Hx. apply IH; auto.
  - simpl in Hv. apply andb_true_iff in Hv as [Hd Hall].
    unfold _parse_dict_with. cbn [py_or].
    assert (Hnew : match current_type self with
                   | None => Ok TyDict
                   | Some (TyList (t :: _)) => Ok t
                   | Some (TyList []) => Raise (IndexError "list index out of range")
                   | Some t => Ok t
                   end
                   = Ok (match current_type self with Some t => t | None => TyDict end)
                   /\ instantiate (match current_type self with Some t => t | None => TyDict end)
                      = Ok (PyDict [])).
    { destruct (current_type self) as [[]|]; try discriminate; now split. }
    destruct Hnew as [-> Hinst]. cbn [bind]. rewrite Hinst. cbn [bind].
    unfold _parse_dict_into_object_with.
    rewrite walk_plain; auto.
    + cbn [bind caller_object app]. now rewrite set_current_type_same.
    + rewrite forallb_forall in Hall. rewrite Forall_forall in *.
      intros kv Hkv. apply IH; auto.
Qed.

End DefaultParser.

(** ** [Parser.parse] *)

Section ParseProperties.

Variable loads : string -> result PyValue.
Variable decode : string -> result string.
Variable classes : nat -> PyClass.

(** C7. A string the decoder rejects with a parse error makes [parse]
    raise the [ValueError] "Failed to parse file" with that error as
    its cause, and so do bytes once decoded; [parse] never lets a parse
    error through, and when it returns, the decoder has read the whole
    source and the result is the walk of the complete decoded value,
    which for a plain target type is the decoded value itself. *)
Theorem malformed_source_is_fatal (d : Source) (self : Parser) :
  match d with
  | SrcStr s =>
      match loads (_fl7_format_clean s) with
      | Raise (ParseError m) =>
          parse loads decode classes d self =
          Raise (ChainedValueError "Failed to parse file" (ParseError m))
      | _ => True
      end
  | SrcBytes b =>
      match decode (_fl7_format_clean b) with
      | Ok s =>
          match loads s with
          | Raise (ParseError m) =>
              parse loads decode classes d self =
              Raise (ChainedValueError "Failed to parse file" (ParseError m))
          | _ => True
          end
      | Raise _ => is_ok (parse loads decode classes d self) = false
      end
  | SrcValue (PyStr s) =>
      match loads (_fl7_format_clean s) with
      | Raise (ParseError m) =>
          parse loads decode classes d self =
          Raise (ChainedValueError "Failed to parse file" (ParseError m))
      | _ => True
      end
  | SrcValue _ => True
  end
  /\ (forall m, parse loads decode classes d self <> Raise (ParseError m))
  /\ (forall r self',
         parse loads decode classes d self = Ok (r, self') ->
         exists v, decoded loads decode d v /\
                   _parse classes v None self = Ok (r, self') /\
                   (plain_type (current_type self) = true ->
                    decoder_value v = true -> r = v)).
Proof.
  assert (Hwalk : forall v r self',
             except_ParseError (_parse classes v None self) = Ok (r, self') ->
             _parse classes v None self = Ok (r, self') /\
             (plain_type (current_type self) = true ->
              decoder_value v = true -> r = v)).
  { intros v r self' H.
    assert (Hp : _parse classes v None self = Ok (r, self'))
      by (unfold except_ParseError in H;
          destruct (_parse classes v None self) as [x|[]]; congruence).
    split; [exact Hp|]. intros Hplain Hv.
    rewrite (parse_plain_identity classes v self Hv Hplain) in Hp. congruence. }
  split; [|split].
  - destruct d as [s|b|[n|m e|s|xs|items|c items]]; try exact I; unfold parse.
    + destruct (loads (_fl7_format_clean s)) as [v|[]]; try exact I. reflexivity.
    + destruct (decode (_fl7_format_clean b)) as [s|e]; cbn [bind].
      * destruct (loads s) as [v|[]]; try exact I. reflexivity.
      * now destruct e.
    + destruct (loads (_fl7_format_clean s)) as [v|[]]; try exact I. reflexivity.
  - intros m. unfold parse.
    match goal with |- except_ParseError ?a <> _ => destruct a as [x|[]] end;
      discriminate.
  - intros r self' H. unfold parse in H.
    destruct d as [s|b|v]; cbn [decoded].
    + destruct (loads (_fl7_format_clean s)) as [v|e]; cbn [bind] in H.
      * exists v. split; [reflexivity|]. exact (Hwalk _ _ _ H).
      * destruct e; discriminate H.
    + destruct (decode (_fl7_format_clean b)) as [s|e]; cbn [bind] in H;
        [|destruct e; discriminate H].
      destruct (loads s) as [v|e] eqn:Hl; cbn [bind] in H;
        [|destruct e; discriminate H].
      exists v. split; [now exists s|]. exact (Hwalk _ _ _ H).
    + destruct v as [n|m e|s|xs|items|c items];
        try (eexists; split; [reflexivity|]; exact (Hwalk _ _ _ H)).
      destruct (loads (_fl7_format_clean s)) as [v|e]; cbn [bind] in H.
      * exists v. split; [reflexivity|]. exact (Hwalk _ _ _ H).
      * destruct e; discriminate H.
Qed.

End ParseProperties.

Example parse_toy_document :
  parse Sample.toy_loads Sample.toy_decode Sample.plain_classes
        (SrcStr "{a = 1; b = (2);};
") default_parser
  = Ok (Sample.document, default_parser).
Proof. reflexivity. Qed.

Example parse_toy_document_str_value :
  parse Sample.toy_loads Sample.toy_decode Sample.plain_classes
        (SrcValue (PyStr "{a = 1; b = (2);};
")) default_parser
  = Ok (Sample.document, default_parser).
Proof. reflexivity. Qed.

Example parse_toy_malformed :
  parse Sample.toy_loads Sample.toy_decode Sample.plain_classes
        (SrcBytes "{a = 1; b = (2)") default_parser
  = Raise (ChainedValueError "Failed to parse file" (ParseError "Unexpected character")).
Proof. reflexivity. Qed.


(** ** The mapping of an axis *)

(** The model on the fonts of the tests, with what the tests assert. *)

Example resolve_locations_on_instances :
  Axes.resolve Axes.font_locations_on_instances =
  [ Some {| Axes.tag := "wght"; Axes.name := "Weight";
            Axes.minimum := 200; Axes.default := 400; Axes.maximum := 700;
            Axes.map := [(200, 48); (300, 62); (400, 72); (600, 92); (700, 112)] |};
    Some {| Axes.tag := "wdth"; Axes.name := "Width";
            Axes.minimum := 50; Axes.default := 100; Axes.maximum := 100;
            Axes.map := [(50, 224); (60, 384); (100, 448)] |} ].
Proof. reflexivity. Qed.

Example resolve_locations_on_instances_none :
  Axes.resolve Axes.font_locations_on_instances_none =
  [ Some {| Axes.tag := "wght"; Axes.name := "Weight";
            Axes.minimum := 200; Axes.default := 400; Axes.maximum := 700;
            Axes.map := [(200, 48); (400, 72); (700, 112)] |};
    Some {| Axes.tag := "wdth"; Axes.name := "Width";
            Axes.minimum := 50; Axes.default := 100; Axes.maximum := 100;
            Axes.map := [(50, 224); (100, 448)] |} ].
Proof. reflexivity. Qed.

Example resolve_locations_on_masters_none :
  Axes.resolve Axes.font_locations_on_masters_none =
  [ Some {| Axes.tag := "wght"; Axes.name := "Weight";
            Axes.minimum := 400; Axes.default := 400; Axes.maximum := 400;
            Axes.map := [(400, 72)] |};
    Some {| Axes.tag := "wdth"; Axes.name := "Width";
            Axes.minimum := 50; Axes.default := 100; Axes.maximum := 100;
            Axes.map := [(50, 224); (60, 384); (100, 448)] |} ].
Proof. reflexivity. Qed.

Example resolve_axis_mappings :
  Axes.resolve Axes.font_axis_mappings =
  [ Some {| Axes.tag := "wght"; Axes.name := "Weight";
            Axes.minimum := 100; Axes.default := 100; Axes.maximum := 900;
            Axes.map := [(100, 0); (400, 350); (900, 1000)] |};
    Some {| Axes.tag := "wdth"; Axes.name := "Width";
            Axes.minimum := 75; Axes.default := 100; Axes.maximum := 100;
            Axes.map := [] |} ].
Proof. reflexivity. Qed.

Example resolve_style_range :
  Axes.resolve Axes.font_style_range =
  [ Some {| Axes.tag := "styl"; Axes.name := "Style";
            Axes.minimum := 0; Axes.default := 0; Axes.maximum := 1;
            Axes.map := [] |} ].
Proof. reflexivity. Qed.

Example resolve_three_weights :
  List.map (fun a => match a with
                     | Some a => Some (Axes.minimum a, Axes.maximum a, Axes.map a)
                     | None => None
                     end)
           (Axes.resolve Axes.font_three_weights) =
  [ Some (200, 700, []) ].
Proof. reflexivity. Qed.

Example resolve_virtual_masters :
  Axes.resolve Axes.font_virtual_masters =
  [ Some {| Axes.tag := "CPHT"; Axes.name := "Cap Height";
            Axes.minimum := 600; Axes.default := 700; Axes.maximum := 800;
            Axes.map := [] |};
    Some {| Axes.tag := "wght"; Axes.name := "Weight";
            Axes.minimum := 400; Axes.default := 400; Axes.maximum := 900;
            Axes.map := [] |} ].
Proof. reflexivity. Qed.

Section AxisMapping.

Local Open Scope list_scope.

Lemma design_of_above user mapping :
  Forall (fun q => user < fst q) mapping -> design_of user mapping = None.
Proof.
  induction 1 as [|[u d] rest Hq _ IH]; simpl; [reflexivity|].
  simpl in Hq. destruct (Z.eqb_spec u user); [lia | exact IH].
Qed.

Lemma insert_pair_in p q mapping :
  In q (Axes.insert_pair p mapping) -> q = p \/ In q mapping.
Proof.
  induction mapping as [|r rest IH]; simpl.
  - intuition.
  - destruct (fst p <? fst r); [simpl; intuition|].
    destruct (fst p =? fst r); simpl; intuition.
Qed.

Lemma insert_pair_increasing p mapping :
  increasing mapping -> increasing (Axes.insert_pair p mapping).
Proof.
  unfold increasing.
  induction 1 as [|r rest Hsorted IH Hall]; simpl.
  - repeat constructor.
  - destruct (Z.ltb_spec (fst p) (fst r)).
    + constructor; [now constructor|].
      constructor; [assumption|].
      eapply Forall_impl; [|exact Hall]. simpl. intros; lia.
    + destruct (Z.eqb_spec (fst p) (fst r)); [now constructor|].
      constructor; [exact IH|].
      rewrite Forall_forall in *. intros q Hq.
      apply insert_pair_in in Hq as [->|Hq]; [lia | auto].
Qed.

Lemma design_of_insert_pair user p mapping :
  increasing mapping ->
  design_of user (Axes.insert_pair p mapping) =
  match design_of user mapping with
  | Some d => Some d
  | None => if fst p =? user then Some (snd p) else None
  end.
Proof.
  unfold increasing. destruct p as [u d]. simpl.
  induction 1 as [|[u' d'] rest Hsorted IH Hall]; simpl; [reflexivity|].
  destruct (Z.ltb_spec u u').
  - simpl. destruct (Z.eqb_spec u user) as [->|].
    + destruct (Z.eqb_spec u' user); [lia|].
      rewrite design_of_above; [reflexivity|].
      eapply Forall_impl; [|exact Hall]. simpl. intros; lia.
    + destruct (u' =? user); [reflexivity|].
      now destruct (design_of user rest).
  - destruct (Z.eqb_spec u u') as [->|].
    + simpl. destruct (Z.eqb_spec u' user); [reflexivity|].
      now destruct (design_of user rest).
    + simpl. destruct (Z.eqb_spec u' user) as [->|]; [reflexivity|exact IH].
Qed.

Lemma fold_insert_pair pairs : forall mapping,
  increasing mapping ->
  let result := fold_left (fun m p => Axes.insert_pair p m) pairs mapping in
  increasing result /\
  (forall user, design_of user result =
                match design_of user mapping with
                | Some d => Some d
                | None => design_of user pairs
                end) /\
  (forall q, In q result -> In q mapping \/ In q pairs).
Proof.
  induction pairs as [|[u d] rest IH]; intros mapping Hm; simpl.
  - split; [exact Hm|]. split; [|auto]. intros user.
    now destruct (design_of user mapping).
  - destruct (IH _ (insert_pair_increasing (u, d) _ Hm)) as (Hinc & Hlook & Hin).
    split; [exact Hinc|]. split.
    + intros user. rewrite Hlook, design_of_insert_pair by exact Hm. simpl.
      destruct (design_of user mapping); [reflexivity|].
      now destruct (u =? user).
    + intros q Hq. apply Hin in Hq as [Hq|Hq]; [|auto].
      apply insert_pair_in in Hq as [->|Hq]; auto.
Qed.

Lemma sort_dedup_spec pairs :
  increasing (Axes.sort_dedup pairs) /\
  (forall user, design_of user (Axes.sort_dedup pairs) = design_of user pairs) /\
  (forall q, In q (Axes.sort_dedup pairs) -> In q pairs).
Proof.
  destruct (fold_insert_pair pairs [] (SSorted_nil _)) as (Hinc & Hlook & Hin).
  split; [exact Hinc|]. split; [exact Hlook|].
  intros q Hq. now destruct (Hin q Hq).
Qed.

Lemma design_of_app user (a b : list (Z * Z)) :
  design_of user (a ++ b) =
  match design_of user a with Some d => Some d | None => design_of user b end.
Proof.
  induction a as [|[u d] rest IH]; simpl; [reflexivity|].
  now destruct (u =? user).
Qed.

Lemma design_of_absent user pairs :
  ~ In user (List.map fst pairs) -> design_of user pairs = None.
Proof.
  induction pairs as [|[u d] rest IH]; simpl; [reflexivity|].
  intros H. destruct (Z.eqb_spec u user); [tauto|]. apply IH. tauto.
Qed.

Lemma design_of_present user pairs :
  In user (List.map fst pairs) -> design_of user pairs <> None.
Proof.
  induction pairs as [|[u d] rest IH]; simpl; [tauto|].
  intros [->|H]; [now rewrite Z.eqb_refl|].
  destruct (u =? user); [discriminate | auto].
Qed.

(** C1, amended. For an axis without an "Axis Mappings" entry: the
    mapping has increasing user values; a user value that a master's
    Axis Location gives maps to that master's design coordinate,
    whatever the instances say about it; a user value that only
    instances give maps to the instance's design coordinate, merged
    into the mapping; and when no master carries an Axis Location for
    the axis, the mapping is made of the instances' entries alone. *)
Theorem axis_location_precedence (font : Axes.GSFont) (i : nat) (axis : Axes.GSAxis) :
  Axes.explicit_mapping (Axes.customParameters font) (Axes.axis_tag axis) = None ->
  let of_masters := Axes.master_pairs font i (Axes.axis_name axis) in
  let of_instances := Axes.instance_pairs font i (Axes.axis_name axis) in
  let mapping := Axes.axis_mapping font i axis in
  increasing mapping /\
  (forall user, In user (List.map fst of_masters) ->
                design_of user mapping = design_of user of_masters) /\
  (forall user, ~ In user (List.map fst of_masters) ->
                design_of user mapping = design_of user of_instances) /\
  (of_masters = [] -> mapping = Axes.sort_dedup of_instances).
Proof.
  intros Hnone of_masters of_instances mapping.
  assert (Hmap : mapping = Axes.sort_dedup (of_masters ++ of_instances)).
  { unfold mapping, Axes.axis_mapping. now rewrite Hnone. }
  destruct (sort_dedup_spec (of_masters ++ of_instances)) as (Hinc & Hlook & _).
  rewrite Hmap. split; [exact Hinc|]. split; [|split].
  - intros user Hin. rewrite Hlook, design_of_app.
    pose proof (design_of_present _ _ Hin).
    now destruct (design_of user of_masters).
  - intros user Hout. rewrite Hlook, design_of_app.
    now rewrite (design_of_absent _ _ Hout).
  - intros ->. reflexivity.
Qed.

End AxisMapping.

Lemma axis_location_precedence_witness :
  Axes.explicit_mapping (Axes.customParameters Axes.font_locations_on_instances) "wght" = None /\
  design_of 400 (Axes.axis_mapping Axes.font_locations_on_instances 0
                   {| Axes.axis_tag := "wght"; Axes.axis_name := "Weight" |}) = Some 72 /\
  design_of 300 (Axes.axis_mapping Axes.font_locations_on_instances 0
                   {| Axes.axis_tag := "wght"; Axes.axis_name := "Weight" |}) = Some 62.
Proof.
  split; [reflexivity|].
  destruct (axis_location_precedence Axes.font_locations_on_instances 0
              {| Axes.axis_tag := "wght"; Axes.axis_name := "Weight" |} eq_refl)
    as (_ & Hmasters & Hinstances & _).
  split.
  - rewrite Hmasters; [reflexivity | simpl; tauto].
  - rewrite Hinstances; [reflexivity|].
    simpl. intros [H|[H|[H|[H|[]]]]]; discriminate H.
Defined.

(** C1, as stated, fails on the font of
    [test_mapping_using_axis_location_custom_parameter_on_instances]: its
    masters carry Axis Location entries for Weight, and the mapping of
    Weight still has the pairs (300, 62) and (600, 92) that only the
    instances give; without the instances' entries it would not. *)
Lemma instance_locations_not_ignored :
  let font := Axes.font_locations_on_instances in
  let weight := {| Axes.axis_tag := "wght"; Axes.axis_name := "Weight" |} in
  Axes.master_pairs font 0 "Weight" = [(400, 72); (700, 112); (200, 48); (400, 72)] /\
  Axes.axis_mapping font 0 weight
    = [(200, 48); (300, 62); (400, 72); (600, 92); (700, 112)] /\
  Axes.axis_mapping (Axes.without_instance_locations font) 0 weight
    = [(200, 48); (400, 72); (700, 112)] /\
  Axes.axis_mapping font 0 weight
    <> Axes.axis_mapping (Axes.without_instance_locations font) 0 weight.
Proof.
  repeat split; try reflexivity. discriminate.
Qed.

(** ** Virtual masters *)

Section VirtualMasters.

Local Open Scope list_scope.

















End VirtualMasters.

(** * Further properties *)

(** ** The trailing semicolon *)

Section Cleaning.

Variable p : ascii -> bool.

Lemma append_empty_r (s : string) : s ++ EmptyString = s.
Proof. induction s as [|c r IH]; simpl; [reflexivity | now rewrite IH]. Qed.

Lemma rstrip_all t : forallb_string p t = true -> rstrip p t = EmptyString.
Proof.
  induction t as [|c r IH]; simpl; [reflexivity|].
  intros H. apply andb_true_iff in H as [Hc Hr].
  now rewrite (IH Hr), Hc.
Qed.

Lemma rstrip_app s t :
  forallb_string p t = true -> rstrip p (s ++ t) = rstrip p s.
Proof.
  intros Ht. induction s as [|c r IH]; simpl.
  - now apply rstrip_all.
  - now rewrite IH.
Qed.

Lemma rstrip_split s :
  exists t, s = rstrip p s ++ t /\ forallb_string p t = true.
Proof.
  induction s as [|c r [t [Hr Ht]]]; simpl.
  - now exists EmptyString.
  - destruct (rstrip p r) as [|c' r'] eqn:E.
    + simpl in Hr. subst t. destruct (p c) eqn:Hc.
      * exists (String c r). simpl. now rewrite Hc, Ht.
      * exists r. now split.
    + exists t. split; [|exact Ht]. simpl. now rewrite Hr at 1.
Qed.

Lemma rstrip_no_trailer s : forall u t,
  rstrip p s = u ++ t -> forallb_string p t = true -> t = EmptyString.
Proof.
  induction s as [|c r IH]; simpl; intros u t Heq Ht.
  - destruct u; [exact (eq_sym Heq) | discriminate].
  - destruct (rstrip p r) as [|c' r'] eqn:E.
    + destruct (p c) eqn:Hc.
      * destruct u; [exact (eq_sym Heq) | discriminate].
      * destruct u as [|a u]; simpl in Heq.
        -- subst t. simpl in Ht. now rewrite Hc in Ht.
        -- injection Heq as _ Heq. destruct u; [exact (eq_sym Heq) | discriminate].
    + destruct u as [|a u]; simpl in Heq.
      * subst t. simpl in Ht. apply andb_true_iff in Ht as [_ Ht].
        discriminate (IH EmptyString _ eq_refl Ht).
      * injection Heq as _ Heq. exact (IH u t Heq Ht).
Qed.

End Cleaning.

(** X1. [_fl7_format_clean] removes from the end of the source a run of
    semicolons and newlines and nothing else, the whole run: what it
    returns ends with neither, and cleaning twice changes nothing. *)
Theorem fl7_format_clean_strips_trailer (d : string) :
  (exists trailer,
      d = _fl7_format_clean d ++ trailer /\ forallb_string fl7_trailer trailer = true) /\
  (forall kept trailer,
      _fl7_format_clean d = kept ++ trailer ->
      forallb_string fl7_trailer trailer = true -> trailer = EmptyString) /\
  _fl7_format_clean (_fl7_format_clean d) = _fl7_format_clean d.
Proof.
  unfold _fl7_format_clean. change (fun c => (c =? ";")%char || (c =? "010")%char)
    with fl7_trailer.
  split; [apply rstrip_split|]. split; [apply rstrip_no_trailer|].
  destruct (rstrip_split fl7_trailer (rstrip fl7_trailer d)) as [t [Hsplit Ht]].
  assert (t = EmptyString) by (eapply rstrip_no_trailer; eauto).
  subst t. now rewrite append_empty_r in Hsplit.
Qed.

(** X2. A source followed by any run of semicolons and newlines parses
    exactly like the source without it, as a string and as bytes. *)
Theorem parse_ignores_trailer
        (loads : string -> result PyValue) (decode : string -> result string)
        (classes : nat -> PyClass) (s trailer : string) (self : Parser) :
  forallb_string fl7_trailer trailer = true ->
  parse loads decode classes (SrcStr (s ++ trailer)) self
    = parse loads decode classes (SrcStr s) self /\
  parse loads decode classes (SrcBytes (s ++ trailer)) self
    = parse loads decode classes (SrcBytes s) self.
Proof.
  intros Ht. unfold parse, _fl7_format_clean.
  change (fun c => (c =? ";")%char || (c =? "010")%char) with fl7_trailer.
  now rewrite (rstrip_app fl7_trailer s trailer Ht).
Qed.

Lemma parse_ignores_trailer_witness :
  forallb_string fl7_trailer ";
;" = true /\
  parse Sample.toy_loads Sample.toy_decode Sample.plain_classes
        (SrcStr ("{a = 1; b = (2);}" ++ ";
;")) default_parser
  = Ok (Sample.document, default_parser).
Proof.
  split; [reflexivity|].
  rewrite (proj1 (parse_ignores_trailer Sample.toy_loads Sample.toy_decode
                    Sample.plain_classes "{a = 1; b = (2);}" ";
;" default_parser eq_refl)).
  reflexivity.
Defined.

(** ** The parser's walk *)

Section Walking.

Local Open Scope list_scope.

Variable classes : nat -> PyClass.

Lemma py_or_idem new_type t : py_or new_type (py_or new_type t) = py_or new_type t.
Proof. destruct new_type as [[| | |[|]]|]; reflexivity. Qed.

Lemma set_current_type_twice self t t' :
  set_current_type (set_current_type self t) t' = set_current_type self t'.
Proof. reflexivity. Qed.

Lemma walk_keeps_parser parse d : forall w self w' self',
  Forall (fun kv => forall self r self',
              parse (snd kv) self = Ok (r, self') -> self' = self) d ->
  walk classes parse d w self = Ok (w', self') -> self' = self.
Proof.
  induction d as [|[name value] rest IH]; intros w self w' self' Hd H.
  - simpl in H. now injection H as _ <-.
  - apply Forall_cons_iff in Hd as [Hv Hd]. simpl in Hv. cbn [walk] in H.
    destruct (hook_of classes (res_of w) _) as [h|].
    + destruct (call_hook (res_of w) h value); [|discriminate]. eauto.
    + destruct (isinstance_dict classes (res_of w)).
      * destruct (parse value self) as [[result self1]|] eqn:Hp; [|discriminate].
        apply Hv in Hp. subst self1. cbn [bind] in H.
        destruct (setitem classes (res_of w) name result) as [r|e]; [eauto|].
        destruct e; try discriminate; cbn [bind setitem] in H; eauto.
      * destruct (setitem classes (res_of w) name value); [|discriminate]. eauto.
Qed.

Lemma map_parse_keeps_parser each new_type xs : forall self vs self',
  Forall (fun x => forall self r self',
              each x new_type self = Ok (r, self') ->
              self' = set_current_type self (py_or new_type (current_type self))) xs ->
  current_type self = py_or new_type (current_type self) ->
  map_parse new_type each xs self = Ok (vs, self') ->
  self' = self /\ List.length vs = List.length xs.
Proof.
  induction xs as [|x rest IH]; intros self vs self' Hxs Hfix H.
  - simpl in H. injection H as <- <-. now split.
  - apply Forall_cons_iff in Hxs as [Hx Hxs]. simpl in H.
    destruct (each x new_type self) as [[v self1]|] eqn:Hv; [|discriminate].
    apply Hx in Hv. rewrite <- Hfix, set_current_type_same in Hv. subst self1.
    cbn [bind] in H.
    destruct (map_parse new_type each rest self) as [[vs' self2]|] eqn:Hrest;
      [|discriminate].
    injection H as <- <-. destruct (IH _ _ _ Hxs Hfix Hrest) as [-> Hlen].
    split; [reflexivity | simpl; now rewrite Hlen].
Qed.

Lemma parse_dict_keeps_parser parse items new_type self r self' :
  Forall (fun kv => forall self r self',
              parse (snd kv) self = Ok (r, self') -> self' = self) items ->
  _parse_dict_with classes parse items new_type self = Ok (r, self') ->
  self' = self.
Proof.
  intros Hitems H. unfold _parse_dict_with in H.
  destruct (match py_or new_type (current_type self) with
            | None => Ok TyDict
            | Some (TyList (t :: _)) => Ok t
            | Some (TyList []) => Raise (IndexError "list index out of range")
            | Some t => Ok t
            end) as [t|]; [|discriminate].
  cbn [bind] in H. destruct (instantiate t) as [res|]; [|discriminate].
  cbn [bind] in H. unfold _parse_dict_into_object_with in H.
  destruct (walk classes _ items _ _) as [[w self1]|] eqn:Hw; [|discriminate].
  cbn [bind] in H. injection H as _ <-.
  apply walk_keeps_parser in Hw; [|exact Hitems].
  subst self1. apply set_current_type_same.
Qed.

Lemma parse_parser_state d : forall new_type self r self',
  _parse classes d new_type self = Ok (r, self') ->
  self' = set_current_type self (py_or new_type (current_type self)).
Proof.
  assert (Hitems : forall items : dict,
             Forall (fun kv => forall new_type self r self',
                         _parse classes (snd kv) new_type self = Ok (r, self') ->
                         self' = set_current_type self (py_or new_type (current_type self)))
                    items ->
             Forall (fun kv => forall self r self',
                         _parse classes (snd kv) None self = Ok (r, self') -> self' = self)
                    items).
  { intros items IH. eapply Forall_impl; [|exact IH].
    intros kv Hkv self0 r0 self0' H0.
    apply Hkv in H0. now rewrite H0, set_current_type_same. }
  induction d as [n|m e|s|xs IH|items IH|c items IH] using PyValue_nested_ind;
    intros new_type self r self' H; cbn [_parse] in H;
    try (now injection H as _ <-).
  - rewrite set_current_type_twice in H. cbn [current_type set_current_type] in H.
    rewrite py_or_idem in H.
    destruct (map_parse new_type (_parse classes) xs _) as [[vs self1]|] eqn:Hm;
      [|discriminate].
    injection H as _ <-.
    apply map_parse_keeps_parser in Hm as [-> _]; [reflexivity| |].
    + eapply Forall_impl; [|exact IH]. intros x Hx self0 r0 self0' H0.
      now apply Hx in H0.
    + cbn [current_type set_current_type]. now rewrite py_or_idem.
  - now apply parse_dict_keeps_parser in H; [|apply Hitems].
  - destruct (cls_isdict (classes c)); [|now injection H as _ <-].
    now apply parse_dict_keeps_parser in H; [|apply Hitems].
Qed.

Lemma same_class_refl a : same_class a a.
Proof. now destruct a. Qed.

Lemma same_class_trans a b c : same_class a b -> same_class b c -> same_class a c.
Proof. destruct a, b, c; simpl; try tauto; congruence. Qed.

Lemma setitem_class res name v r : setitem classes res name v = Ok r -> same_class r res.
Proof.
  destruct res; simpl; try discriminate.
  - now intros [= <-].
  - destruct (cls_setitem _ _ _ _); simpl; [|discriminate]. now intros [= <-].
Qed.

Lemma call_hook_class res h v r : call_hook res h v = Ok r -> same_class r res.
Proof.
  destruct res; simpl; try (intros [= <-]; exact I).
  destruct (h v items); simpl; [|discriminate]. now intros [= <-].
Qed.

Lemma mutate_class w r :
  same_class r (res_of w) -> same_class (caller_object (mutate w r)) (caller_object w).
Proof.
  unfold mutate, res_of. destruct (rebound w); simpl; [|auto].
  intros _. apply same_class_refl.
Qed.

Lemma walk_class parse d : forall w self w' self',
  walk classes parse d w self = Ok (w', self') ->
  same_class (caller_object w') (caller_object w).
Proof.
  induction d as [|[name value] rest IH]; intros w self w' self' H.
  - simpl in H. injection H as <- _. apply same_class_refl.
  - cbn [walk] in H.
    destruct (hook_of classes (res_of w) _) as [h|].
    + destruct (call_hook (res_of w) h value) as [r|] eqn:Hh; [|discriminate].
      cbn [bind] in H. apply IH in H.
      eapply same_class_trans; [exact H|]. apply mutate_class.
      eapply call_hook_class; eauto.
    + destruct (isinstance_dict classes (res_of w)).
      * destruct (parse value self) as [[result self1]|]; [|discriminate].
        cbn [bind] in H.
        destruct (setitem classes (res_of w) name result) as [r|e] eqn:Hs.
        -- apply IH in H. eapply same_class_trans; [exact H|].
           apply mutate_class. eapply setitem_class; eauto.
        -- destruct e; try discriminate; cbn [bind setitem] in H;
             apply IH in H; exact H.
      * destruct (setitem classes (res_of w) name value) as [r|] eqn:Hs; [|discriminate].
        cbn [bind] in H. apply IH in H.
        eapply same_class_trans; [exact H|]. apply mutate_class.
        eapply setitem_class; eauto.
Qed.

Lemma walk_stores parse c d : forall items self,
  stores_items classes c d ->
  walk classes parse d {| caller_object := PyInst c items; rebound := None |} self
  = Ok ({| caller_object := PyInst c (dict_update items d); rebound := None |}, self).
Proof.
  induction d as [|[name value] rest IH]; intros items self (Hd & Hh & Hs);
    [reflexivity|].
  cbn [walk]. unfold res_of. cbn [rebound caller_object hook_of isinstance_dict].
  rewrite Hh by (now left). rewrite Hd. cbn [setitem]. rewrite Hs. cbn [bind].
  unfold mutate. cbn [rebound]. rewrite IH; [reflexivity|].
  split; [exact Hd|]. split; [|exact Hs].
  intros n Hn. apply Hh. now right.
Qed.

Lemma typed_target_walk c d items self :
  stores_items classes c d ->
  _parse_dict_into_object classes (PyInst c items) d self
  = Ok ({| caller_object := PyInst c (dict_update items d); rebound := None |}, self).
Proof.
  intros H. unfold _parse_dict_into_object, _parse_dict_into_object_with.
  now apply walk_stores.
Qed.

Lemma parse_dict_instance parse text new_type self r self' :
  _parse_dict_with classes parse text new_type self = Ok (r, self') ->
  exists t, chosen_type (py_or new_type (current_type self)) = Some t /\
            instance_of t r.
Proof.
  unfold _parse_dict_with, _parse_dict_into_object_with, chosen_type. intros H.
  destruct (py_or new_type (current_type self)) as [[| |c|[|[| |c|ts'] ts]]|];
    cbn [bind instantiate] in H; try discriminate;
    match type of H with
    | context [walk classes ?p ?d ?w ?s] =>
        destruct (walk classes p d w s) as [[w' self1]|] eqn:Hw
    end; try discriminate; cbn [bind] in H; injection H as <- _;
    apply walk_class in Hw; cbn [caller_object] in Hw;
    eexists; (split; [reflexivity|]);
    destruct (caller_object w'); simpl in *; try tauto; congruence.
Qed.

End Walking.

(** A [str] given to [parse] is source text, whichever way it is
    given. *)
Lemma parse_str_is_source loads decode classes s self :
  parse loads decode classes (SrcValue (PyStr s)) self
  = parse loads decode classes (SrcStr s) self.
Proof. reflexivity. Qed.

(** X3. [Parser.parse] on an already decoded value that is not a [str]
    (a [str] is source text and is decoded), with a plain target type
    ([dict], [OrderedDict] or none), returns a value equal to the one it
    was given and leaves the parser as it was. *)
Theorem parse_rebuilds_decoded_value
        (loads : string -> result PyValue) (decode : string -> result string)
        (classes : nat -> PyClass) (v : PyValue) (self : Parser) :
  is_str v = false ->
  decoder_value v = true ->
  plain_type (current_type self) = true ->
  parse loads decode classes (SrcValue v) self = Ok (v, self).
Proof.
  intros Hstr Hv Hplain.
  destruct v as [n|m e|s|xs|items|c items]; try discriminate Hstr; unfold parse;
    now rewrite (parse_plain_identity classes _ self Hv Hplain).
Qed.

Lemma parse_rebuilds_decoded_value_witness :
  is_str Sample.document = false /\
  decoder_value Sample.document = true /\
  parse Sample.toy_loads Sample.toy_decode Sample.strict_classes
        (SrcValue Sample.document) default_parser
  = Ok (Sample.document, default_parser).
Proof.
  split; [reflexivity|]. split; [reflexivity|].
  exact (parse_rebuilds_decoded_value Sample.toy_loads Sample.toy_decode
           Sample.strict_classes Sample.document default_parser
           eq_refl eq_refl eq_refl).
Defined.

(** X4. After a successful [_parse] the parser's current type is the type
    it was called with, or the type it had when it was called with none:
    the types used inside nested dictionaries are undone, and the format
    version is never touched. *)
Theorem parse_leaves_current_type
        (classes : nat -> PyClass) (d : PyValue) (new_type : option PyType)
        (self : Parser) (r : PyValue) (self' : Parser) :
  _parse classes d new_type self = Ok (r, self') ->
  current_type self' = py_or new_type (current_type self) /\
  format_version self' = format_version self.
Proof.
  intros H. apply parse_parser_state in H. subst self'. now split.
Qed.

Lemma parse_leaves_current_type_witness :
  exists r self',
    _parse Sample.strict_classes Sample.document (Some TyDict) Sample.strict_parser
      = Ok (r, self') /\
    current_type self' = Some TyDict /\ format_version self' = 2.
Proof.
  eexists _, _. split; [reflexivity|].
  exact (parse_leaves_current_type Sample.strict_classes Sample.document
           (Some TyDict) Sample.strict_parser _ _ eq_refl).
Defined.

(** X5. What a successful [_parse] returns has the shape of its input: a
    list becomes a list of the same length; a dictionary, and likewise an
    instance of a subclass of [dict], becomes an instance of the target
    type (the first one of a list of types), a plain dict when there is
    none, and this also when assignments were rejected on the way;
    anything else, an instance of another class included, is returned
    as it is. *)
Theorem parse_result_shape
        (classes : nat -> PyClass) (d : PyValue) (new_type : option PyType)
        (self : Parser) (r : PyValue) (self' : Parser) :
  _parse classes d new_type self = Ok (r, self') ->
  match d with
  | PyList xs => exists vs, r = PyList vs /\ List.length vs = List.length xs
  | PyDict _ =>
      exists t, chosen_type (py_or new_type (current_type self)) = Some t /\
                instance_of t r
  | PyInst c _ =>
      if cls_isdict (classes c)
      then exists t, chosen_type (py_or new_type (current_type self)) = Some t /\
                     instance_of t r
      else r = d
  | _ => r = d
  end.
Proof.
  intros H. destruct d as [n|m e|s|xs|items|c items]; cbn [_parse] in H;
    try (now injection H as <- _).
  - rewrite set_current_type_twice in H. cbn [current_type set_current_type] in H.
    rewrite py_or_idem in H.
    destruct (map_parse new_type (_parse classes) xs _) as [[vs self1]|] eqn:Hm;
      [|discriminate].
    injection H as <- _. exists vs. split; [reflexivity|].
    apply map_parse_keeps_parser in Hm as [_ Hlen]; [exact Hlen| |].
    + rewrite Forall_forall. intros x _ self0 r0 self0' H0.
      now apply parse_parser_state in H0.
    + cbn [current_type set_current_type]. now rewrite py_or_idem.
  - apply parse_dict_instance in H. cbn [current_type set_current_type] in H.
    now rewrite py_or_idem in H.
  - destruct (cls_isdict (classes c)); [|now injection H as <- _].
    apply parse_dict_instance in H. cbn [current_type set_current_type] in H.
    now rewrite py_or_idem in H.
Qed.

Lemma parse_result_shape_witness :
  exists r self',
    _parse Sample.strict_classes Sample.document None Sample.strict_parser = Ok (r, self') /\
    exists t, chosen_type (py_or None (current_type Sample.strict_parser)) = Some t /\
              instance_of t r.
Proof.
  eexists _, _. split; [reflexivity|].
  exact (parse_result_shape Sample.strict_classes Sample.document None
           Sample.strict_parser _ _ eq_refl).
Defined.

(** An instance of a subclass of [dict] is walked like a dictionary, here
    into a fresh instance of the target class that rejects the items; an
    instance of another class is returned as it is. *)
Example parse_dict_subclass_instance :
  _parse Sample.strict_classes (PyInst 0 [("a", PyInt 1)]) None Sample.strict_parser
  = Ok (PyInst 0 [], Sample.strict_parser) /\
  _parse Sample.plain_classes (PyInst 0 [("a", PyInt 1)]) None Sample.strict_parser
  = Ok (PyInst 0 [("a", PyInt 1)], Sample.strict_parser).
Proof. split; reflexivity. Qed.

(** X6. A target that is no dict and has no hook for the keys receives
    the values as the decoder gave them: nested lists and dictionaries
    are assigned unparsed, one assignment per key in the order of the
    keys, and the parser is not used. *)
Theorem typed_target_stores_raw_values
        (classes : nat -> PyClass) (c : nat) (items d : dict) (self : Parser) :
  stores_items classes c d ->
  _parse_dict_into_object classes (PyInst c items) d self
  = Ok ({| caller_object := PyInst c (dict_update items d); rebound := None |}, self).
Proof.
  intros H. unfold _parse_dict_into_object, _parse_dict_into_object_with.
  now apply walk_stores.
Qed.

Lemma typed_target_stores_raw_values_witness :
  stores_items Sample.plain_classes 0 [("a", PyDict [("x", PyList [PyInt 1])])] /\
  _parse_dict_into_object Sample.plain_classes (PyInst 0 [("a", PyInt 0)])
    [("a", PyDict [("x", PyList [PyInt 1])])] Sample.strict_parser
  = Ok ({| caller_object := PyInst 0 [("a", PyDict [("x", PyList [PyInt 1])])];
           rebound := None |}, Sample.strict_parser).
Proof.
  assert (H : stores_items Sample.plain_classes 0 [("a", PyDict [("x", PyList [PyInt 1])])])
    by (repeat split; reflexivity).
  split; [exact H|].
  exact (typed_target_stores_raw_values Sample.plain_classes 0 [("a", PyInt 0)]
           [("a", PyDict [("x", PyList [PyInt 1])])] Sample.strict_parser H).
Defined.

(** ** Hook names *)

Lemma sane_no_dot name :
  forallb_string (fun c => negb (Ascii.eqb c ".")) (sane name) = true.
Proof.
  induction name as [|c r IH]; simpl; [reflexivity|].
  destruct (Ascii.eqb c ".") eqn:E; simpl; [exact IH|]. now rewrite E, IH.
Qed.

Lemma sane_without_dot name :
  forallb_string (fun c => negb (Ascii.eqb c ".")) name = true -> sane name = name.
Proof.
  induction name as [|c r IH]; simpl; [reflexivity|].
  intros H. apply andb_true_iff in H as [Hc Hr].
  apply negb_true_iff in Hc. now rewrite Hc, (IH Hr).
Qed.

(** X7. The name under which a hook is looked up has no dot, and a key in
    which every dot is already written as two underscores selects the
    same hook as the dotted key: the two cannot be told apart. *)
Theorem hook_name_has_no_dot (classes : nat -> PyClass) (res : PyValue) (name : string) :
  forallb_string (fun c => negb (Ascii.eqb c ".")) (sane name) = true /\
  hook_of classes res ("_parse_" ++ sane (sane name) ++ "_dict")
  = hook_of classes res ("_parse_" ++ sane name ++ "_dict").
Proof.
  split; [apply sane_no_dot|].
  now rewrite (sane_without_dot _ (sane_no_dot name)).
Qed.

(** ** More on the code-page normalization *)

Section Normalization.

Local Open Scope list_scope.

Variable CODEPAGE_RANGES : list (Z * Z).

Lemma find_codepages_none params :
  forallb has_name params = true ->
  forallb not_codepage_param params = true ->
  find_codepages params = Ok None.
Proof.
  induction params as [|q rest IH]; simpl; [reflexivity|].
  intros Hn Hc.
  apply andb_true_iff in Hn as [Hq Hn]. apply andb_true_iff in Hc as [Hq' Hc].
  unfold has_name in Hq. unfold not_codepage_param, is_codepage_param in Hq'.
  destruct (py_getitem q "name") as [name|]; [|discriminate]. simpl.
  apply negb_true_iff in Hq'. rewrite Hq'. auto.
Qed.

Lemma process_without_codepages items :
  no_codepage_param items ->
  _process_codepage_ranges CODEPAGE_RANGES (PyDict items) = Ok (PyDict items).
Proof.
  unfold no_codepage_param, _process_codepage_ranges. cbn [py_get].
  destruct (lookup "customParameters" items) as [[| | |params| |]|];
    try (intros []; fail); [|reflexivity].
  intros [Hn Hc]. cbn [bind py_iter]. now rewrite find_codepages_none.
Qed.

(** X8. A font payload without a parameter named codePageRanges or
    openTypeOS2CodePageRanges, or without custom parameters at all, comes
    out of the normalization as it went in. *)
Theorem fonts_without_codepages_untouched (items : dict) :
  no_codepage_param items ->
  _process_codepage_ranges CODEPAGE_RANGES (PyDict items) = Ok (PyDict items).
Proof. apply process_without_codepages. Qed.

Lemma process_keeps_other_keys (value out : PyValue) :
  _process_codepage_ranges CODEPAGE_RANGES value = Ok out ->
  exists items items',
    value = PyDict items /\ out = PyDict items' /\
    List.map fst items' = List.map fst items /\
    (forall key, key <> "customParameters" -> lookup key items' = lookup key items).
Proof.
  intros H. destruct value as [n|m e|s|xs|items|c items]; try discriminate.
  exists items. unfold _process_codepage_ranges in H. cbn [py_get bind] in H.
  destruct (py_iter _) as [params|]; [|discriminate]. cbn [bind] in H.
  destruct (find_codepages params) as [[codepages|]|]; [| |discriminate]; cbn [bind] in H.
  - destruct (py_iter codepages) as [pages|]; [|discriminate]. cbn [bind] in H.
    destruct (split_pages CODEPAGE_RANGES pages [] []) as [[supported unsupported]|];
      [|discriminate].
    cbn [bind] in H.
    destruct (py_getitem (PyDict items) "customParameters") as [custom|] eqn:Hc;
      [|discriminate].
    cbn [bind] in H. destruct (py_iter custom) as [params'|]; [|discriminate].
    cbn [bind] in H. destruct (keep_params params' []) as [kept|]; [|discriminate].
    cbn [bind] in H. injection H as <-. eexists. split; [reflexivity|].
    split; [reflexivity|]. split.
    + apply keys_dict_set. simpl in Hc.
      destruct (lookup "customParameters" items); [discriminate | discriminate].
    + intros key Hk. now apply lookup_dict_set_other.
  - injection H as <-. exists items. repeat split.
Qed.

(** X9. The normalization only ever replaces the value stored under
    [customParameters]: when it returns, the payload was a dict, the
    result has the same keys in the same order, and every other key has
    the value it had. *)
Theorem normalization_changes_custom_parameters_only (value out : PyValue) :
  _process_codepage_ranges CODEPAGE_RANGES value = Ok out ->
  exists items items',
    value = PyDict items /\ out = PyDict items' /\
    List.map fst items' = List.map fst items /\
    (forall key, key <> "customParameters" -> lookup key items' = lookup key items).
Proof. apply process_keeps_other_keys. Qed.

Lemma convert_bits_raises value e :
  _convert_bits value = Raise e -> is_FormatError e = true.
Proof.
  destruct value as [n|m x|s|xs|items|c items]; try (simpl; now intros [= <-]).
  rewrite convert_bits_str.
  destruct (decimal_only s); [discriminate|].
  destruct (isdigit s); [now intros [= <-]|].
  destruct (String.prefix "bit " s); [|now intros [= <-]].
  destruct (int_of_str (drop 4 s)); [discriminate | now intros [= <-]].
Qed.

Lemma convert_bits_outside value :
  bit_number value = false -> exists e, _convert_bits value = Raise e.
Proof.
  destruct value as [n|m x|s|xs|items|c items]; try (simpl; eexists; reflexivity).
  - simpl. discriminate.
  - unfold bit_number. rewrite convert_bits_str.
    destruct (decimal_only s); cbn [orb]; [discriminate|].
    destruct (isdigit s); [eexists; reflexivity|].
    destruct (String.prefix "bit " s); cbn [andb]; [|eexists; reflexivity].
    destruct (int_of_str (drop 4 s)); cbn [is_ok];
      [discriminate | eexists; reflexivity].
Qed.

Lemma split_pages_rejects pages : forall supported unsupported,
  existsb (fun page => not_in_keys CODEPAGE_RANGES page && negb (bit_number page)) pages
    = true ->
  exists e, split_pages CODEPAGE_RANGES pages supported unsupported = Raise e /\
            is_FormatError e = true.
Proof.
  unfold not_in_keys.
  induction pages as [|page rest IH]; intros supported unsupported H; [discriminate|].
  simpl in H. cbn [split_pages].
  destruct (in_keys CODEPAGE_RANGES page) eqn:Hin.
  - destruct (in_keys_int CODEPAGE_RANGES page Hin) as [k [Hk _]].
    rewrite Hk. cbn [bind]. simpl in H. now apply IH.
  - destruct (_convert_bits page) as [b|e] eqn:Hb; cbn [bind].
    + apply IH. simpl in H. destruct (bit_number page) eqn:Hbit; [exact H|].
      destruct (convert_bits_outside page Hbit). congruence.
    + exists e. split; [reflexivity|]. eapply convert_bits_raises; eauto.
Qed.

(** X10. One value of the consumed parameter that is neither in the table
    nor in the bit-number grammar makes the whole normalization fail with
    a FormatError: no part of the font is returned. *)
Theorem one_bad_page_fails_normalization
        (items : dict) (params before : list PyValue) (first : PyValue)
        (after : list PyValue) (codepages : PyValue) (pages : list PyValue) :
  lookup "customParameters" items = Some (PyList params) ->
  first_codepage_param params before first after ->
  py_getitem first "value" = Ok codepages ->
  py_iter codepages = Ok pages ->
  existsb (fun page => not_in_keys CODEPAGE_RANGES page && negb (bit_number page)) pages
    = true ->
  exists e, _process_codepage_ranges CODEPAGE_RANGES (PyDict items) = Raise e /\
            is_FormatError e = true.
Proof.
  intros Hl Hfirst Hv Hp Hbad.
  rewrite (process_codepage_ranges_first _ _ _ _ _ _ _ _ Hl Hfirst Hv Hp).
  destruct (split_pages_rejects pages [] [] Hbad) as [e [-> He]].
  now exists e.
Qed.

Lemma in_keys_of_key k :
  In k (List.map fst CODEPAGE_RANGES) -> in_keys CODEPAGE_RANGES (PyInt k) = true.
Proof.
  intros H. unfold in_keys, CODEPAGE_RANGES_KEYS. cbn [py_str].
  apply existsb_exists. exists (str_of_int k). split; [|apply String.eqb_refl].
  apply in_map_iff in H as [[k' b] [Hk H]]. simpl in Hk. subst k'.
  apply in_map_iff. now exists (k, b).
Qed.

Lemma split_pages_of_keys supported :
  Forall (fun k => In k (List.map fst CODEPAGE_RANGES)) supported ->
  split_pages CODEPAGE_RANGES (List.map PyInt supported) [] [] = Ok (supported, []).
Proof.
  intros H. apply (split_pages_ok CODEPAGE_RANGES _ [] []).
  - induction H as [|k rest Hk _ IH]; simpl; [reflexivity|].
    rewrite (in_keys_of_key _ Hk). simpl. now rewrite IH.
  - unfold not_in_keys. induction H as [|k rest Hk _ IH]; simpl; [reflexivity|].
    now rewrite (in_keys_of_key _ Hk).
Qed.

Lemma filter_all {A} (f : A -> bool) l : forallb f l = true -> filter f l = l.
Proof.
  induction l as [|x rest IH]; simpl; [reflexivity|].
  intros H. apply andb_true_iff in H as [-> Hr]. now rewrite IH.
Qed.

(** X11. Normalizing a font that is already normalized keeps both emitted
    parameters and their values, but not always their order: codePageRanges
    is consumed and emitted again at the end, after
    codePageRangesUnsupportedBits. With one of the two absent the font comes
    out unchanged. *)
Theorem normalization_of_normalized_font
        (items : dict) (kept : list PyValue) (supported unsupported : list Z) :
  forallb has_name kept = true ->
  forallb not_codepage_param kept = true ->
  Forall (fun k => In k (List.map fst CODEPAGE_RANGES)) supported ->
  _process_codepage_ranges CODEPAGE_RANGES
    (PyDict (with_params items (kept ++ emitted supported unsupported)))
  = Ok (PyDict (with_params items
                  (kept ++ emit "codePageRangesUnsupportedBits" unsupported []
                        ++ emit "codePageRanges" supported []))).
Proof.
  intros Hn Hc Hkeys.
  assert (Hbits : forall l,
             forallb has_name (emit "codePageRangesUnsupportedBits" unsupported l)
             = forallb has_name l /\
             forallb not_codepage_param (emit "codePageRangesUnsupportedBits" unsupported l)
             = forallb not_codepage_param l).
  { intros l. destruct unsupported; simpl; [now split|].
    rewrite !forallb_app. simpl. rewrite !andb_true_r. now split. }
  destruct supported as [|k ks].
  - unfold emitted. cbn [emit]. rewrite app_nil_r.
    apply process_without_codepages. unfold no_codepage_param, with_params.
    rewrite lookup_dict_set_same.
    rewrite !forallb_app, Hn, Hc.
    destruct (Hbits []) as [-> ->]. now split.
  - set (first := custom_parameter "codePageRanges" (k :: ks)).
    set (bits := emit "codePageRangesUnsupportedBits" unsupported []).
    assert (Hparams : kept ++ emitted (k :: ks) unsupported = kept ++ first :: bits).
    { unfold emitted, bits. cbn [emit app]. now rewrite (emit_app _ unsupported [first]). }
    rewrite Hparams.
    assert (Hfirst : first_codepage_param (kept ++ first :: bits) kept first bits).
    { split; [reflexivity|]. split; [|now split].
      rewrite forallb_app, Hn. cbn [forallb]. unfold bits.
      now destruct (Hbits []) as [-> _]. }
    rewrite (process_codepage_ranges_first CODEPAGE_RANGES
               (with_params items (kept ++ first :: bits)) _ _ _ _
               (PyList (List.map PyInt (k :: ks))) (List.map PyInt (k :: ks))
               (lookup_dict_set_same _ _ _) Hfirst eq_refl eq_refl).
    rewrite (split_pages_of_keys _ Hkeys). cbn [bind].
    unfold with_params. rewrite dict_set_twice.
    rewrite (filter_first_codepage _ _ _ (proj2 (proj2 (proj2 Hfirst)))).
    rewrite (filter_all _ _ Hc), (filter_all _ bits).
    + unfold emitted. cbn [emit app]. now rewrite <- app_assoc.
    + unfold bits. now destruct (Hbits []) as [_ ->].
Qed.

End Normalization.

Lemma fonts_without_codepages_untouched_witness :
  no_codepage_param (Sample.font_with [Sample.note; Sample.old_bits]) /\
  _process_codepage_ranges Sample.table (PyDict (Sample.font_with [Sample.note; Sample.old_bits]))
  = Ok (PyDict (Sample.font_with [Sample.note; Sample.old_bits])).
Proof.
  assert (H : no_codepage_param (Sample.font_with [Sample.note; Sample.old_bits]))
    by (split; reflexivity).
  split; [exact H|].
  exact (fonts_without_codepages_untouched Sample.table _ H).
Defined.

Lemma normalization_changes_custom_parameters_only_witness :
  exists out items',
    _process_codepage_ranges Sample.table (PyDict Sample.font) = Ok out /\
    out = PyDict items' /\
    List.map fst items' = ["familyName"; "customParameters"; "unitsPerEm"] /\
    lookup "unitsPerEm" items' = Some (PyInt 1000).
Proof.
  destruct (normalization_changes_custom_parameters_only Sample.table
              (PyDict Sample.font) _ eq_refl)
    as (items & items' & Hv & Hout & Hkeys & Hother).
  injection Hv as <-.
  eexists _, items'. split; [reflexivity|]. split; [exact Hout|].
  split; [exact Hkeys|]. now rewrite Hother.
Defined.

Lemma one_bad_page_fails_normalization_witness :
  first_codepage_param [Sample.parameter "codePageRanges" (PyList [PyInt 1252; PyStr "cp1250"])]
                       [] (Sample.parameter "codePageRanges" (PyList [PyInt 1252; PyStr "cp1250"])) [] /\
  exists e,
    _process_codepage_ranges Sample.table
      (PyDict (Sample.font_with
                 [Sample.parameter "codePageRanges" (PyList [PyInt 1252; PyStr "cp1250"])]))
    = Raise e /\ is_FormatError e = true.
Proof.
  assert (H : first_codepage_param
                [Sample.parameter "codePageRanges" (PyList [PyInt 1252; PyStr "cp1250"])]
                [] (Sample.parameter "codePageRanges" (PyList [PyInt 1252; PyStr "cp1250"])) [])
    by (repeat split; reflexivity).
  split; [exact H|].
  exact (one_bad_page_fails_normalization Sample.table
           (Sample.font_with
              [Sample.parameter "codePageRanges" (PyList [PyInt 1252; PyStr "cp1250"])])
           _ _ _ _
           (PyList [PyInt 1252; PyStr "cp1250"]) [PyInt 1252; PyStr "cp1250"]
           eq_refl H eq_refl eq_refl eq_refl).
Defined.

Lemma normalization_of_normalized_font_witness :
  Forall (fun k => In k (List.map fst Sample.table)) [1252; 1250] /\
  _process_codepage_ranges Sample.table
    (PyDict (with_params Sample.font
               [ Sample.note;
                 custom_parameter "codePageRanges" [1252; 1250];
                 custom_parameter "codePageRangesUnsupportedBits" [29; 30] ]))
  = Ok (PyDict (with_params Sample.font
                  [ Sample.note;
                    custom_parameter "codePageRangesUnsupportedBits" [29; 30];
                    custom_parameter "codePageRanges" [1252; 1250] ])).
Proof.
  assert (H : Forall (fun k => In k (List.map fst Sample.table)) [1252; 1250])
    by (repeat constructor; simpl; tauto).
  split; [exact H|].
  exact (normalization_of_normalized_font Sample.table Sample.font [Sample.note]
           [1252; 1250] [29; 30] eq_refl eq_refl H).
Defined.

(** ** Reading back what [str] prints *)

Lemma prefix_bit s : String.prefix "bit " ("bit " ++ s) = true.
Proof. apply String.prefix_correct. simpl. now destruct s. Qed.

(** X12. The bit-number coercion reads back the decimal numeral of every
    integer after ["bit "], but on its own only that of an integer that is
    not negative: the numeral of a negative one is rejected as neither a
    number nor a ["bit "] form. *)
Theorem convert_bits_reads_numerals (n : Z) :
  _convert_bits (PyStr ("bit " ++ str_of_int n)) = Ok n /\
  _convert_bits (PyStr (str_of_int n)) =
  if 0 <=? n then Ok n
  else Raise (ValueError ("'" ++ str_of_int n ++ "'is neither a number nor 'bit ' format.")).
Proof.
  split.
  - rewrite convert_bits_str.
    change (decimal_only ("bit " ++ str_of_int n)) with false.
    change (isdigit ("bit " ++ str_of_int n)) with false.
    rewrite prefix_bit.
    change (drop 4 ("bit " ++ str_of_int n)) with (str_of_int n).
    now rewrite int_of_str_of_int.
  - rewrite convert_bits_str. destruct n as [|p|p]; [reflexivity| |].
    + unfold str_of_int. cbn [Z.to_int NilZero.string_of_int].
      rewrite nilzero_positive. destruct (str_of_positive p) as [-> ->]. reflexivity.
    + unfold str_of_int. cbn [Z.to_int NilZero.string_of_int]. reflexivity.
Qed.

(** ** The payload of a package *)

Section PackagePayload.

Local Open Scope list_scope.

Lemma distinct_NoDup keys : distinct keys = true <-> NoDup keys.
Proof.
  induction keys as [|k rest IH]; simpl.
  - split; [constructor | reflexivity].
  - rewrite andb_true_iff, negb_true_iff, IH. split.
    + intros [Hk Hrest]. constructor; [|exact Hrest]. intros Hin.
      assert (existsb (String.eqb k) rest = true)
        by (apply existsb_exists; exists k; split; [exact Hin | apply String.eqb_refl]).
      congruence.
    + intros H. inversion H as [|? ? Hk Hrest]. subst. split; [|exact Hrest].
      destruct (existsb (String.eqb k) rest) eqn:E; [|reflexivity].
      apply existsb_exists in E as [x [Hx Heq]]. apply String.eqb_eq in Heq.
      subst x. contradiction.
Qed.

Lemma lookup_absent key (items : dict) :
  ~ In key (List.map fst items) -> lookup key items = None.
Proof.
  induction items as [|[k x] rest IH]; simpl; [reflexivity|].
  intros H. destruct (String.eqb_spec k key); [tauto|]. apply IH. tauto.
Qed.

Lemma lookup_present key (items : dict) v :
  lookup key items = Some v -> In key (List.map fst items).
Proof.
  induction items as [|[k x] rest IH]; simpl; [discriminate|].
  destruct (String.eqb_spec k key); [now left | right; auto].
Qed.

Lemma lookup_in_keys key (items : dict) :
  In key (List.map fst items) -> lookup key items <> None.
Proof.
  induction items as [|[k x] rest IH]; simpl; [tauto|].
  intros [->|H]; [now rewrite String.eqb_refl|].
  destruct (String.eqb k key); [discriminate | auto].
Qed.

Lemma lookup_dict_update key (other : dict) : forall items,
  NoDup (List.map fst other) ->
  lookup key (dict_update items other) =
  match lookup key other with
  | Some v => Some v
  | None => lookup key items
  end.
Proof.
  unfold dict_update.
  induction other as [|[k v] rest IH]; intros items Hd; simpl; [reflexivity|].
  simpl in Hd. inversion Hd as [|? ? Hk Hrest]. subst.
  rewrite (IH _ Hrest). destruct (String.eqb_spec k key) as [->|Hne].
  - rewrite (lookup_absent _ _ Hk). apply lookup_dict_set_same.
  - destruct (lookup key rest); [reflexivity|].
    apply lookup_dict_set_other. congruence.
Qed.

Lemma keys_dict_remove key (items : dict) x :
  In x (List.map fst (dict_remove key items)) -> In x (List.map fst items).
Proof.
  induction items as [|[k v] rest IH]; simpl; [tauto|].
  destruct (String.eqb k key); simpl; tauto.
Qed.

Lemma dict_remove_NoDup key (items : dict) :
  NoDup (List.map fst items) -> NoDup (List.map fst (dict_remove key items)).
Proof.
  induction items as [|[k v] rest IH]; simpl; [auto|].
  intros H. inversion H as [|? ? Hk Hrest]. subst.
  destruct (String.eqb k key); simpl; [exact Hrest|].
  constructor; [|auto]. intros Hin. apply Hk. eapply keys_dict_remove; eauto.
Qed.

Lemma lookup_dict_remove key key' (items : dict) :
  NoDup (List.map fst items) ->
  lookup key' (dict_remove key items) =
  if String.eqb key' key then None else lookup key' items.
Proof.
  induction items as [|[k v] rest IH]; simpl; intros H.
  - now destruct (String.eqb key' key).
  - inversion H as [|? ? Hk Hrest]. subst.
    destruct (String.eqb_spec k key) as [->|Hne].
    + destruct (String.eqb_spec key' key) as [->|Hne'].
      * now apply lookup_absent.
      * destruct (String.eqb_spec key key'); congruence.
    + simpl. rewrite (IH Hrest).
      destruct (String.eqb_spec k key') as [->|]; [|reflexivity].
      destruct (String.eqb_spec key' key); congruence.
Qed.

Lemma dict_set_NoDup key v (items : dict) :
  NoDup (List.map fst items) -> NoDup (List.map fst (dict_set key v items)).
Proof.
  intros H. destruct (lookup key items) eqn:E.
  - rewrite keys_dict_set; [exact H | congruence].
  - assert (Hfresh : dict_set key v items = items ++ [(key, v)]).
    { clear H. induction items as [|[k x] rest IH]; simpl in *; [reflexivity|].
      destruct (String.eqb k key); [discriminate|]. now rewrite IH. }
    rewrite Hfresh, map_app. simpl.
    apply NoDup_app; [exact H | repeat constructor; simpl; tauto |].
    intros x Hx [Heq|[]]. subst x.
    apply (lookup_in_keys _ _ Hx). exact E.
Qed.

Lemma renamed_uistate_value (uistate : dict) key v :
  NoDup (List.map fst uistate) ->
  lookup "displayStrings" uistate = Some v ->
  lookup "DisplayStrings" uistate = None ->
  lookup key (dict_set "DisplayStrings" v (dict_remove "displayStrings" uistate))
  = uistate_value uistate key.
Proof.
  intros Hd Hlow Hup. unfold uistate_value. rewrite Hlow, Hup.
  destruct (String.eqb_spec key "DisplayStrings") as [->|Hne].
  - apply lookup_dict_set_same.
  - rewrite lookup_dict_set_other by exact Hne.
    now rewrite lookup_dict_remove.
Qed.

(** X13. In the payload of a package the UI state wins over the font
    info on every key they share; its [displayStrings] entry is filed
    under [DisplayStrings] when it has none of that name, and its own
    [displayStrings] key is then gone, so that a [displayStrings] of the
    font info shows through. (The [glyphs] key is set afterwards.) *)
Theorem uistate_overrides_fontinfo (package : Package) (key : string) :
  key <> "glyphs" ->
  match uistatefile package with
  | None => lookup key (load_glyphspackage package) = lookup key (fontinfo package)
  | Some uistate =>
      distinct (List.map fst uistate) = true ->
      lookup key (load_glyphspackage package) =
      match uistate_value uistate key with
      | Some v => Some v
      | None => lookup key (fontinfo package)
      end
  end.
Proof.
  intros Hkey. unfold load_glyphspackage.
  rewrite !lookup_dict_set_other by exact Hkey.
  destruct (uistatefile package) as [uistate|]; [|reflexivity].
  intros Hd. apply distinct_NoDup in Hd. unfold merge_uistate.
  destruct (lookup "displayStrings" uistate) as [v|] eqn:Hlow.
  - destruct (lookup "DisplayStrings" uistate) as [v'|] eqn:Hup.
    + rewrite lookup_dict_update by exact Hd.
      unfold uistate_value. now rewrite Hlow, Hup.
    + rewrite lookup_dict_update
        by (apply dict_set_NoDup, dict_remove_NoDup; exact Hd).
      now rewrite (renamed_uistate_value _ _ _ Hd Hlow Hup).
  - rewrite lookup_dict_update by exact Hd.
    unfold uistate_value. now rewrite Hlow.
Qed.

Lemma key_lt_irrefl k : key_lt k k = false.
Proof.
  destruct k as [i|s]; simpl; [apply Nat.ltb_irrefl|].
  unfold String.ltb. pose proof (String.compare_antisym s s) as H.
  now destruct (String.compare s s).
Qed.

Lemma insert_sorted_filter {A} (key : A -> SortKey) (P : A -> bool) x l :
  (forall y, P x = true -> P y = true -> key_lt (key y) (key x) = false) ->
  filter P (insert_sorted key x l) = filter P (x :: l).
Proof.
  intros Hsame. induction l as [|y rest IH]; [reflexivity|].
  cbn [insert_sorted]. destruct (key_lt (key y) (key x)) eqn:Hlt; [|reflexivity].
  cbn [filter] in *. rewrite IH.
  destruct (P x) eqn:Hx, (P y) eqn:Hy; try reflexivity.
  rewrite (Hsame y eq_refl Hy) in Hlt. discriminate.
Qed.

Lemma sorted_filter {A} (key : A -> SortKey) (P : A -> bool) l :
  (forall x y, P x = true -> P y = true -> key_lt (key y) (key x) = false) ->
  filter P (sorted key l) = filter P l.
Proof.
  intros Hsame. induction l as [|x rest IH]; [reflexivity|].
  cbn [sorted]. rewrite insert_sorted_filter by (intros y; apply Hsame).
  cbn [filter]. now rewrite IH.
Qed.

(** X14. The sort of the glyphs is stable: glyph files that carry one and
    the same glyph name stay in the order in which the directory listing
    gave them. *)
Theorem same_named_glyphs_keep_their_order (package : Package) (name : string) :
  exists glyphs,
    lookup "glyphs" (load_glyphspackage package)
      = Some (PyList (List.map glyph_value glyphs)) /\
    filter (named name) glyphs = filter (named name) (glyphfiles package).
Proof.
  exists (package_glyphs package). split.
  - unfold load_glyphspackage, package_glyphs. apply lookup_dict_set_same.
  - unfold package_glyphs. apply sorted_filter.
    intros x y Hx Hy. unfold named in *.
    apply String.eqb_eq in Hx, Hy. unfold sort_key. rewrite Hx, Hy.
    apply key_lt_irrefl.
Qed.

Lemma StronglySorted_weaken {A} (R R' : A -> A -> Prop) l :
  (forall a b, R a b -> R' a b) -> StronglySorted R l -> StronglySorted R' l.
Proof.
  intros HR. induction 1 as [|x rest Hs IH Hall]; constructor; [exact IH|].
  eapply Forall_impl; [|exact Hall]. intros b. apply HR.
Qed.

(** X15. Without an order file, or with an empty one, the glyphs of the
    payload are in ascending order of their names, compared code point by
    code point (so every capital letter before every small one). *)
Theorem unordered_package_is_sorted_by_name (package : Package) :
  match orderfile package with
  | None | Some [] =>
      exists glyphs,
        lookup "glyphs" (load_glyphspackage package)
          = Some (PyList (List.map glyph_value glyphs)) /\
        StronglySorted (fun a b => String.leb (glyphname a) (glyphname b) = true) glyphs
  | Some _ => True
  end.
Proof.
  assert (H : forall files,
             StronglySorted (fun a b => String.leb (glyphname a) (glyphname b) = true)
                            (sorted (sort_key []) files)).
  { intros files.
    apply (StronglySorted_weaken (in_key_order (sort_key []))); [|apply sorted_ordered].
    intros a b Hab. exact (glyph_key_order [] a b Hab). }
  unfold load_glyphspackage.
  destruct (orderfile package) as [[|n order]|]; [| exact I |];
    (eexists; split; [apply lookup_dict_set_same | apply H]).
Qed.

End PackagePayload.

Lemma uistate_overrides_fontinfo_witness :
  "DisplayStrings" <> "glyphs" /\
  lookup "DisplayStrings" (load_glyphspackage SamplePackage.package)
    = Some (PyList [PyStr "ab"]) /\
  lookup "displayStrings" (load_glyphspackage SamplePackage.package)
    = Some (PyList []).
Proof.
  assert (H1 : "DisplayStrings" <> "glyphs") by discriminate.
  assert (H2 : "displayStrings" <> "glyphs") by discriminate.
  split; [exact H1|]. split.
  - exact (uistate_overrides_fontinfo SamplePackage.package "DisplayStrings" H1 eq_refl).
  - exact (uistate_overrides_fontinfo SamplePackage.package "displayStrings" H2 eq_refl).
Defined.

Example sample_package_glyphs :
  List.map glyphname (package_glyphs SamplePackage.package) = ["b"; "a"; "Z"; "c"].
Proof. reflexivity. Qed.

(** ** [load] and [loads] *)

Section Loading.

Local Open Scope list_scope.

Variable plist_loads : string -> result PyValue.
Variable classes : nat -> PyClass.
Variable CODEPAGE_RANGES : list (Z * Z).
Variable GSFont : nat.

Lemma dict_update_NoDup (other : dict) : forall items,
  NoDup (List.map fst items) -> NoDup (List.map fst (dict_update items other)).
Proof.
  unfold dict_update. induction other as [|[k v] rest IH]; intros items H; [exact H|].
  simpl. apply IH. now apply dict_set_NoDup.
Qed.

Lemma parse_into_object_class res value self w self' :
  parse_into_object classes CODEPAGE_RANGES res value self = Ok (w, self') ->
  same_class (caller_object w) res.
Proof.
  unfold parse_into_object, _parse_dict_into_object, _parse_dict_into_object_with.
  destruct (_process_codepage_ranges CODEPAGE_RANGES value) as [[| | | |d|]|];
    cbn [bind]; try discriminate.
  intros H. now apply walk_class in H.
Qed.

(** X16. What [load] returns is the object it was given to parse into, or
    a new [GSFont] when it was given none: an object of that class, as the
    walk left it. A decoder error leaves [load] as it is, a parse error
    included, which [Parser.parse] would have turned into a [ValueError];
    and [loads] is [load] on a readable source with no font. *)
Theorem load_returns_the_font (file_or_path : FileOrPath) (font : option PyValue) :
  (forall r,
      load plist_loads classes CODEPAGE_RANGES GSFont file_or_path font = Ok r ->
      same_class r (match font with Some f => f | None => PyInst GSFont [] end)) /\
  match file_or_path with
  | Readable content | Path content =>
      match plist_loads content with
      | Raise e =>
          load plist_loads classes CODEPAGE_RANGES GSFont file_or_path font = Raise e
      | Ok _ => True
      end
  | Directory _ => True
  end /\
  (forall s, loads plist_loads classes CODEPAGE_RANGES GSFont s
             = load plist_loads classes CODEPAGE_RANGES GSFont (Readable s) None).
Proof.
  split; [|split].
  - intros r H. unfold load in H.
    destruct (match file_or_path with
              | Readable content => plist_loads content
              | Directory package => Ok (PyDict (load_glyphspackage package))
              | Path content => plist_loads content
              end) as [data|]; [|discriminate].
    cbn [bind] in H.
    destruct (parse_into_object _ _ _ _ _) as [[w self']|] eqn:Hp; [|discriminate].
    cbn [bind] in H. injection H as <-.
    apply parse_into_object_class in Hp. now destruct font.
  - destruct file_or_path as [content|package|content]; [|exact I|];
      unfold load; destruct (plist_loads content); exact I || reflexivity.
  - reflexivity.
Qed.

(** X17. Loading a package directory into an object that stores what it
    is assigned leaves under its [glyphs] key the glyph list in package
    order: the glyphs sorted by the order file, then by name. *)
Theorem load_directory_stores_sorted_glyphs
        (package : Package) (c : nat) (items : dict) (r : PyValue) :
  (forall d, stores_items classes c d) ->
  distinct (List.map fst (fontinfo package)) = true ->
  load plist_loads classes CODEPAGE_RANGES GSFont (Directory package)
       (Some (PyInst c items)) = Ok r ->
  exists items',
    r = PyInst c items' /\
    lookup "glyphs" items'
    = Some (PyList (List.map glyph_value (package_glyphs package))).
Proof.
  intros Hstores Hd H. apply distinct_NoDup in Hd.
  unfold load in H. cbn [bind] in H. unfold parse_into_object in H.
  destruct (_process_codepage_ranges CODEPAGE_RANGES
              (PyDict (load_glyphspackage package))) as [processed|] eqn:Hp;
    [|discriminate].
  apply process_keeps_other_keys in Hp as (data & out & Hdata & -> & Hkeys & Hother).
  injection Hdata as <-. cbn [bind] in H.
  rewrite (typed_target_walk classes c out items _ (Hstores out)) in H.
  cbn [bind caller_object] in H. injection H as <-.
  eexists. split; [reflexivity|].
  rewrite lookup_dict_update.
  - rewrite Hother by discriminate. unfold load_glyphspackage, package_glyphs.
    now rewrite lookup_dict_set_same.
  - rewrite Hkeys. unfold load_glyphspackage.
    apply dict_set_NoDup, dict_set_NoDup.
    destruct (uistatefile package); [|exact Hd].
    unfold merge_uistate. now apply dict_update_NoDup.
Qed.

End Loading.

Lemma load_directory_stores_sorted_glyphs_witness :
  distinct (List.map fst (fontinfo SamplePackage.package)) = true /\
  exists items',
    load Sample.toy_loads Sample.plain_classes Sample.table 0
         (Directory SamplePackage.package) (Some (PyInst 0 []))
    = Ok (PyInst 0 items') /\
    lookup "glyphs" items'
    = Some (PyList (List.map glyph_value
                      [SamplePackage.glyph "b"; SamplePackage.glyph "a";
                       SamplePackage.glyph "Z"; SamplePackage.glyph "c"])).
Proof.
  split; [reflexivity|].
  assert (Hstores : forall d, stores_items Sample.plain_classes 0 d)
    by (intros d; split; [reflexivity | split; intros; reflexivity]).
  destruct (load_directory_stores_sorted_glyphs Sample.toy_loads Sample.plain_classes
              Sample.table 0 SamplePackage.package 0 [] _ Hstores eq_refl eq_refl)
    as (items' & Hr & Hglyphs).
  exists items'. split; [now rewrite <- Hr | exact Hglyphs].
Defined.
